(* ===================================================================== *)
(*  0xQuantBot: bot.py, class TwitterNewsBot                             *)
(*                                                                       *)
(*  A shallow embedding of the summarise / format / acquire-media /      *)
(*  publish pipeline, and the properties of it that the specification    *)
(*  states.                                                              *)
(*                                                                       *)
(*  Conventions of the embedding                                         *)
(*   - a Python str is a list of Unicode code points (len counts code    *)
(*     points), a bytes object is a list of byte values;                 *)
(*   - the local file system is a finite map from path to file content;  *)
(*     unlink, exists, stat and write_bytes act on that map; making the  *)
(*     temporary directory succeeds or raises, as the environment says;  *)
(*   - every call that leaves the process (HTTP, OpenAI, tweepy, the     *)
(*     headless browser, Pillow) is answered by an oracle of the         *)
(*     environment record and is recorded in a trace;                    *)
(*   - Python exceptions are the Raise outcome of a state-and-error      *)
(*     monad; logger calls are not modelled.                             *)
(* ===================================================================== *)

From Stdlib Require Import ZArith NArith Lia Decimal.
From stdpp Require Import gmap strings list fin_maps.

(* ===================================================================== *)
(** * Python strings                                                     *)
(* ===================================================================== *)

Module Py.

(** A code point, a str, a bytes object. *)
Abbreviation char := N (only parsing).
Abbreviation str := (list N) (only parsing).
Abbreviation bytes := (list N) (only parsing).

(** An ASCII literal of the source as a list of code points. *)
Definition u (s : string) : str :=
  map Ascii.N_of_ascii (String.list_ascii_of_string s).

Definition NL : char := 10%N.

Definition char_eqb (a b : char) : bool := N.eqb a b.

Fixpoint str_eqb (a b : str) : bool :=
  match a, b with
  | [], [] => true
  | x :: a', y :: b' => char_eqb x y && str_eqb a' b'
  | _, _ => false
  end.

(** [c in chars] for a single code point. *)
Definition char_in (chars : str) (c : char) : bool :=
  existsb (char_eqb c) chars.

(** str.isspace on one code point (CPython's Py_UNICODE_ISSPACE). *)
Definition isspace (c : char) : bool :=
  ((9 <=? c) && (c <=? 13) || (28 <=? c) && (c <=? 32)
   || (c =? 133) || (c =? 160) || (c =? 5760)
   || (8192 <=? c) && (c <=? 8202)
   || (c =? 8232) || (c =? 8233) || (c =? 8239) || (c =? 8287)
   || (c =? 12288))%N.

(** Line boundaries of str.splitlines. *)
Definition is_linebreak (c : char) : bool :=
  ((10 <=? c) && (c <=? 13) || (28 <=? c) && (c <=? 30)
   || (c =? 133) || (c =? 8232) || (c =? 8233))%N.

Fixpoint drop_while {A} (f : A -> bool) (l : list A) : list A :=
  match l with
  | [] => []
  | x :: l' => if f x then drop_while f l' else l
  end.

Definition lstrip_with (f : char -> bool) (s : str) : str := drop_while f s.
Definition rstrip_with (f : char -> bool) (s : str) : str :=
  rev (drop_while f (rev s)).
Definition strip_with (f : char -> bool) (s : str) : str :=
  rstrip_with f (lstrip_with f s).

(** s.strip() *)
Definition strip (s : str) : str := strip_with isspace s.
(** s.strip(chars) *)
Definition strip_chars (chars s : str) : str := strip_with (char_in chars) s.

(** s.startswith(p) *)
Fixpoint startswith (p s : str) : bool :=
  match p, s with
  | [], _ => true
  | x :: p', y :: s' => char_eqb x y && startswith p' s'
  | _ :: _, [] => false
  end.

(** [sub in s] *)
Fixpoint contains (sub s : str) : bool :=
  startswith sub s ||
  match s with
  | [] => false
  | _ :: s' => contains sub s'
  end.

(** sep.join(parts) *)
Fixpoint join (sep : str) (parts : list str) : str :=
  match parts with
  | [] => []
  | [x] => x
  | x :: rest => x ++ sep ++ join sep rest
  end.

(** s.split(sep, 1) for a non-empty separator: the text before the first
    occurrence of sep and the text after it, or the whole string alone. *)
Fixpoint split_once (sep s : str) : list str :=
  if startswith sep s then [[]; drop (length sep) s]
  else match s with
       | [] => [[]]
       | c :: s' =>
           match split_once sep s' with
           | first :: others => (c :: first) :: others
           | [] => [[c]]
           end
       end.

(** s.split(c) for a one-character separator. *)
Fixpoint split_char (c : char) (s : str) : list str :=
  match s with
  | [] => [[]]
  | x :: s' =>
      if char_eqb x c then [] :: split_char c s'
      else match split_char c s' with
           | first :: others => (x :: first) :: others
           | [] => [[x]]
           end
  end.

(** s.splitlines(): cur holds the current line, reversed. *)
Fixpoint splitlines_from (cur : str) (s : str) : list str :=
  match s with
  | [] => match cur with [] => [] | _ => [rev cur] end
  | c :: s' =>
      if is_linebreak c then
        rev cur ::
        match s' with
        | d :: s'' =>
            if char_eqb c 13%N && char_eqb d 10%N
            then splitlines_from [] s''
            else splitlines_from [] s'
        | [] => splitlines_from [] s'
        end
      else splitlines_from (c :: cur) s'
  end.

Definition splitlines (s : str) : list str := splitlines_from [] s.

(** ASCII case mapping; code points outside A-Z and a-z are kept.  The
    full Unicode tables of str.upper and str.lower are a parameter of the
    environment, this is the instance used in examples. *)
Definition ascii_upper (s : str) : str :=
  map (fun c => if (97 <=? c) && (c <=? 122) then c - 32 else c)%N s.
Definition ascii_lower (s : str) : str :=
  map (fun c => if (65 <=? c) && (c <=? 90) then c + 32 else c)%N s.

(** str(n) for an integer n. *)
Fixpoint digits_of_uint (d : Decimal.uint) : str :=
  match d with
  | Nil => []
  | D0 d' => 48%N :: digits_of_uint d'
  | D1 d' => 49%N :: digits_of_uint d'
  | D2 d' => 50%N :: digits_of_uint d'
  | D3 d' => 51%N :: digits_of_uint d'
  | D4 d' => 52%N :: digits_of_uint d'
  | D5 d' => 53%N :: digits_of_uint d'
  | D6 d' => 54%N :: digits_of_uint d'
  | D7 d' => 55%N :: digits_of_uint d'
  | D8 d' => 56%N :: digits_of_uint d'
  | D9 d' => 57%N :: digits_of_uint d'
  end.

Definition str_of_Z (z : Z) : str :=
  match Z.to_int z with
  | Pos d => digits_of_uint d
  | Neg d => 45%N :: digits_of_uint d
  end.

(** s[:k]: a negative k counts from the end, and the slice is empty when
    the stop falls before the start. *)
Definition slice_to (k : Z) (s : str) : str :=
  if (k <? 0)%Z then take (length s - Z.to_nat (- k)) s
  else take (Z.to_nat k) s.

(** len(s) as a Python int. *)
Definition len (s : str) : Z := Z.of_nat (length s).

End Py.
Import Py.

(* ===================================================================== *)
(** * build_tweet_text                                                   *)
(* ===================================================================== *)

(** The two markers, code point by code point as the source file has
    them: five code points for the headline marker (the last a space),
    four for the point marker. *)
Definition HEADLINE_MARK : str := [240; 376; 8220; 176; 32]%N.
Definition POINT_MARK : str := [226; 8211; 184; 32]%N.

Definition full_format (headline : str) (key_points : list str) : str :=
  HEADLINE_MARK ++ headline ++ [NL; NL]
    ++ join [NL] (map (fun p => POINT_MARK ++ p) key_points) ++ [NL; NL].

Definition abbreviated (headline : str) (key_points : list str) : str :=
  HEADLINE_MARK ++ headline ++ [NL; NL]
    ++ match key_points with
       | p :: _ => POINT_MARK ++ p
       | [] => []
       end
    ++ [NL; NL].

Definition minimal (headline : str) : str :=
  HEADLINE_MARK ++ headline ++ [NL; NL].

Definition build_tweet_text (headline : str) (key_points : list str)
  : str * str :=
  let key_points := take 3 key_points in
  let headline := strip headline in
  if length (full_format headline key_points) <=? 260
  then (strip (full_format headline key_points), u "full")
  else if length (abbreviated headline key_points) <=? 280
  then (strip (abbreviated headline key_points), u "abbreviated")
  else (strip (minimal headline), u "minimal").

(** ** The formatter as the specification words it

    The tiers are tried in the order full, abbreviated; each has a form
    and a budget, the first form within its budget is chosen, and the
    headline alone is the last resort. *)
Record TierRule := {
  tier_name : str;
  tier_form : str;
  tier_budget : nat;
}.

Definition bulleted (points : list str) : list str :=
  map (app POINT_MARK) points.

Definition tier_rules (headline : str) (key_points : list str)
  : list TierRule :=
  [ {| tier_name := u "full";
       tier_form := HEADLINE_MARK ++ headline ++ [NL; NL]
                      ++ join [NL] (bulleted (take 3 key_points))
                      ++ [NL; NL];
       tier_budget := 260 |};
    {| tier_name := u "abbreviated";
       tier_form := HEADLINE_MARK ++ headline ++ [NL; NL]
                      ++ from_option (app POINT_MARK) [] (head key_points)
                      ++ [NL; NL];
       tier_budget := 280 |} ].

Definition within_budget (r : TierRule) : bool :=
  length (tier_form r) <=? tier_budget r.

Definition format_by_tiers (headline : str) (key_points : list str)
  : str * str :=
  let h := strip headline in
  match List.find within_budget (tier_rules h key_points) with
  | Some r => (strip (tier_form r), tier_name r)
  | None => (strip (HEADLINE_MARK ++ h ++ [NL; NL]), u "minimal")
  end.

(* ===================================================================== *)
(** * Effects: exceptions, the file system and the trace of outside calls *)
(* ===================================================================== *)

(** The exception classes the source tells apart.  [except Exception]
    catches every one of them, [except OpenAIError] and [except Forbidden]
    only their own. *)
Inductive exn :=
  | OpenAIError
  | Forbidden
  | IndexError
  | OtherException.

Inductive outcome (A : Type) :=
  | Return (a : A)
  | Raise (e : exn).
Arguments Return {A} a.
Arguments Raise {A} e.

(** Every call that leaves the process, in the order it was made. *)
Inductive Event :=
  | EFetchCrypto
  | EFetchWorld
  | EChatCompletion (messages : list (str * str))
  | EPillowRender (font : str)
  | ERequestsGet (url : str)
  | ELaunch (executable : str)
  | ENewPage
  | ESetViewport (width height : Z)
  | ESetUserAgent
  | EGoto (url : str)
  | EWaitForSelector (sel : str)
  | EQuerySelector (sel : str)
  | EEvaluate (sel : str)
  | EElementScreenshot (sel path : str)
  | EPageScreenshot (path : str)
  | EBrowserClose
  | EMediaUpload (path : str)
  | ECreateTweet (text : str) (media_ids : option (list Z))
  | EUploadMePost (path : str).

Record World := {
  fs : gmap (list N) (list N);
  trace : list Event;
}.

Definition M (A : Type) : Type := World -> outcome A * World.

Definition ret {A} (a : A) : M A := fun w => (Return a, w).
Definition raise {A} (e : exn) : M A := fun w => (Raise e, w).
Definition bind {A B} (m : M A) (k : A -> M B) : M B :=
  fun w =>
    match m w with
    | (Return a, w') => k a w'
    | (Raise e, w') => (Raise e, w')
    end.

Notation "'let*' x ':=' m 'in' k" := (bind m (fun x => k))
  (at level 10, x name, m at level 100, k at level 200, only parsing).

(** Run a block and hand its outcome to the code after the try. *)
Definition attempt {A} (m : M A) : M (outcome A) :=
  fun w => let '(r, w') := m w in (Return r, w').

(** try: body / except Exception: handler *)
Definition try_except {A} (body : M A) (handler : exn -> M A) : M A :=
  let* r := attempt body in
  match r with
  | Return a => ret a
  | Raise e => handler e
  end.

(** try: body / finally: cleanup.  An exception of the cleanup replaces
    the outcome of the body. *)
Definition try_finally {A} (body : M A) (cleanup : M unit) : M A :=
  let* r := attempt body in
  let* _ := cleanup in
  match r with
  | Return a => ret a
  | Raise e => raise e
  end.

(** An outside call: the oracle's answer, recorded in the trace. *)
Definition call {A} (ev : Event) (answer : outcome A) : M A :=
  fun w => (answer, {| fs := fs w; trace := trace w ++ [ev] |}).

(** Path(p).exists(), Path(p).unlink(missing_ok=True),
    Path(p).write_bytes(data), Path(p).stat().st_size *)
Definition path_exists (p : str) : M bool :=
  fun w => (Return (bool_decide (is_Some (fs w !! p))), w).
Definition unlink (p : str) : M unit :=
  fun w => (Return tt, {| fs := delete p (fs w); trace := trace w |}).
Definition write_bytes (p : str) (data : bytes) : M unit :=
  fun w => (Return tt, {| fs := <[p := data]> (fs w); trace := trace w |}).
Definition st_size (p : str) : M Z :=
  fun w => (Return (Z.of_nat (length (default [] (fs w !! p)))), w).

(** Truth value of a str, and of an Optional[str]. *)
Definition truthy (s : str) : bool :=
  match s with [] => false | _ => true end.
Definition truthy_opt (s : option str) : bool :=
  match s with Some s => truthy s | None => false end.

(* ===================================================================== *)
(** * Data                                                               *)
(* ===================================================================== *)

Record NewsItem := {
  title : str;
  description : str;
  url : str;
  published_at : str;
  source : str;
}.

(** Values of the result dictionaries of post_tweet and run. *)
Inductive pyval :=
  | PNone
  | PBool (b : bool)
  | PStr (s : str)
  | PList (l : list str).

Definition of_optional (o : option str) : pyval :=
  match o with Some s => PStr s | None => PNone end.

(** The merged option dictionary of run. *)
Record Options := {
  use_image : bool;
  image_generation_type : str;
  screenshot_target : str;
  crypto_news_enabled : bool;
  world_news_enabled : bool;
  dry_run : bool;
  use_openai_image_only : bool;
}.

(** The collaborators.  Each oracle gives the answer of one outside call
    as a function of its arguments. *)
Record Env := {
  (* Python runtime *)
  str_upper : str -> str;
  str_lower : str -> str;
  gettempdir : str;
  utcnow_timestamp : Z;
  (* Path(tempfile.gettempdir()) / "twitter_bot" and its
     mkdir(parents=True, exist_ok=True): done, or the exception raised
     when the directory cannot be made *)
  temp_dir_created : outcome unit;
  (* news suppliers: the lists fetch_crypto_news and fetch_world_news
     return; both absorb their own failures *)
  crypto_news : list NewsItem;
  world_news : list NewsItem;
  (* openai_client.chat.completions.create, answering with
     response.choices[0].message.content *)
  chat_completions_create : list (str * str) -> outcome (option str);
  (* the Pillow drawing of one font variation: the PNG it saves *)
  pillow_render : str -> str -> list str -> outcome bytes;
  (* requests.get: status code and body *)
  requests_get : str -> outcome (Z * bytes);
  (* pyppeteer *)
  launch_imported : bool;
  chromium_executable : option str;
  browser_launch : str -> outcome unit;
  browser_newPage : outcome unit;
  page_setViewport : Z -> Z -> outcome unit;
  page_setUserAgent : outcome unit;
  page_goto : str -> outcome unit;
  page_waitForSelector : str -> outcome unit;
  page_querySelector : str -> outcome bool;
  page_evaluate_box : str -> outcome (option (Z * Z));
  element_screenshot : str -> str -> outcome (option bytes);
  page_screenshot : str -> outcome (option bytes);
  browser_close : outcome unit;
  (* tweepy *)
  media_upload : str -> outcome Z;
  create_tweet : str -> option (list Z) -> outcome (option str);
  (* UploadMe *)
  uploadme_api_key : option str;
  uploadme_post : str -> outcome (option str);
}.

(* ===================================================================== *)
(** * summarize_news                                                     *)
(* ===================================================================== *)

(** The bullet marker of the summariser, three code points in the source. *)
Definition BULLET : str := [226; 8364; 162]%N.
Definition HEADLINE_TAG : str := u "HEADLINE:".

Definition news_line (i : nat) (item : NewsItem) : str :=
  str_of_Z (Z.of_nat (i + 1)) ++ u ". " ++ title item ++ [NL]
    ++ u "Source: " ++ source item.

Definition news_text (news_items : list NewsItem) : str :=
  join [NL] (imap news_line news_items).

Definition prompt (news_items : list NewsItem) : str :=
  u "Analyze these crypto/tech news discoveries and respond using the format:"
    ++ [NL]
    ++ u "HEADLINE: BREAKING TOP OF THE HOUR: ... (max 100 chars)" ++ [NL]
    ++ u "KEY POINTS:" ++ [NL]
    ++ BULLET ++ u " point 1" ++ [NL]
    ++ BULLET ++ u " point 2" ++ [NL]
    ++ BULLET ++ u " point 3" ++ [NL]
    ++ u "Each key point max 100 characters. End the last bullet with 'Powered by 0xQuantAi Agent - The Future of Crypto Action'."
    ++ [NL; NL]
    ++ u "News items:" ++ [NL] ++ news_text news_items ++ [NL].

Definition messages (news_items : list NewsItem) : list (str * str) :=
  [ (u "system",
     u "You are a top crypto influencer who writes punchy Twitter content.");
    (u "user", prompt news_items) ].

(** One turn of the loop over content.splitlines(). *)
Definition parse_line (acc : str * list str) (line : str) : str * list str :=
  let '(headline, key_points) := acc in
  if startswith HEADLINE_TAG line
  then (strip (default [] (split_once HEADLINE_TAG line !! 1)), key_points)
  else if startswith BULLET (strip line)
  then (headline, key_points ++ [strip_chars (BULLET ++ u " ") line])
  else (headline, key_points).

Definition parse_summary (content : str) : str * list str :=
  fold_left parse_line (splitlines content) ([], []).

Definition titles (news_items : list NewsItem) : list str :=
  map title news_items.

Definition summarize_news (env : Env) (news_items : list NewsItem)
  : M (str * list str) :=
  match news_items with
  | [] => ret (u "Latest news update", [u "Stay informed"])
  | first :: _ =>
      let* r := attempt (call (EChatCompletion (messages news_items))
                          (chat_completions_create env (messages news_items))) in
      match r with
      | Raise OpenAIError =>
          let headline := title first in
          let points :=
            match titles (take 3 (drop 1 news_items)) with
            | [] => [u "Stay informed"]
            | ps => ps
            end in
          ret (headline, points)
      | Raise e => raise e
      | Return response =>
          let content := default [] response in
          let '(headline, key_points) := parse_summary content in
          let headline := if truthy headline then headline else title first in
          let key_points :=
            match key_points with
            | [] => titles (take 3 news_items)
            | _ => key_points
            end in
          ret (headline, take 3 key_points)
      end
  end.

(* ===================================================================== *)
(** * Media acquisition                                                  *)
(* ===================================================================== *)

Definition CRYPTO_SYMBOLS : list str :=
  [u "BTC"; u "ETH"; u "SOL"; u "XRP"; u "ADA"; u "DOT"; u "MATIC";
   u "LINK"; u "UNI"; u "AVAX"].

Definition COINGECKO_IDS : list str :=
  [u "bitcoin"; u "ethereum"; u "solana"; u "ripple"; u "cardano"].

(** d.get(key, fallback) on a dictionary literal. *)
Fixpoint dict_get (d : list (str * str)) (key fallback : str) : str :=
  match d with
  | [] => fallback
  | (k, v) :: d' => if str_eqb k key then v else dict_get d' key fallback
  end.

(** Path(tempfile.gettempdir()) / "twitter_bot" / name. *)
Definition temp_file (env : Env) (name : str) : str :=
  gettempdir env ++ u "/twitter_bot/" ++ name.

(** temp_dir = Path(tempfile.gettempdir()) / "twitter_bot"
    temp_dir.mkdir(parents=True, exist_ok=True)
    Directories are not files of the model: a mkdir that succeeds leaves
    the map as it is, one that fails raises. *)
Definition temp_dir_mkdir (env : Env) : M unit :=
  fun w => (temp_dir_created env, w).

Definition timestamp (env : Env) : str := str_of_Z (utcnow_timestamp env).

(** ** generate_ai_image: the directory is made before the loop and
    outside its try; then the first font variation that draws and saves *)
Definition font_variations : list str :=
  [u "Inter"; u "Montserrat"; u "Roboto"; u "HelveticaNeue"].

Fixpoint overlay_with (env : Env) (headline : str) (key_points : list str)
    (fonts : list str) : M (option str) :=
  match fonts with
  | [] => ret None
  | font_name :: rest =>
      let* r := attempt (
        let* png := call (EPillowRender font_name)
                         (pillow_render env font_name headline key_points) in
        let image_path :=
          temp_file env (u "news_overlay_" ++ str_lower env font_name
                           ++ u "_" ++ timestamp env ++ u ".png") in
        let* _ := write_bytes image_path png in
        ret (Some image_path)) in
      match r with
      | Return p => ret p
      | Raise _ => overlay_with env headline key_points rest
      end
  end.

Definition generate_ai_image (env : Env) (headline : str)
    (key_points : list str) : M (option str) :=
  let* _ := temp_dir_mkdir env in
  overlay_with env headline key_points font_variations.

(** ** _download_chart_image *)
Definition symbol_to_id : list (str * str) :=
  [ (u "BTC", u "bitcoin"); (u "ETH", u "ethereum"); (u "SOL", u "solana");
    (u "XRP", u "ripple"); (u "ADA", u "cardano"); (u "DOT", u "polkadot");
    (u "MATIC", u "matic-network"); (u "LINK", u "chainlink");
    (u "UNI", u "uniswap"); (u "AVAX", u "avalanche-2") ].

Definition _download_chart_image (env : Env) (symbol : str)
  : M (option str) :=
  try_except (
    let coin_id := dict_get symbol_to_id (str_upper env symbol) (u "bitcoin") in
    let chart_image_url :=
      u "https://www.coingecko.com/coins/" ++ coin_id ++ u "/sparkline.png" in
    let* response := call (ERequestsGet chart_image_url)
                          (requests_get env chart_image_url) in
    let '(status_code, content) := response in
    if (status_code =? 200)%Z && truthy content && (1000 <? len content)%Z
    then
      let* _ := temp_dir_mkdir env in
      let image_path :=
        temp_file env (u "chart_" ++ symbol ++ u "_" ++ timestamp env
                         ++ u ".png") in
      let* _ := write_bytes image_path content in
      ret (Some image_path)
    else ret None)
  (fun _ => ret None).

(** ** _capture_screenshot *)

(** The loop over the comma-separated selectors: the first that becomes
    visible. *)
Fixpoint first_visible (env : Env) (selectors : list str) : M (option str) :=
  match selectors with
  | [] => ret None
  | sel :: rest =>
      let* r := attempt (call (EWaitForSelector sel)
                              (page_waitForSelector env sel)) in
      match r with
      | Return _ => ret (Some sel)
      | Raise _ => first_visible env rest
      end
  end.

(** A screenshot call: when it answers with image data, the file is
    written at the path it was given. *)
Definition take_shot (ev : Event) (answer : outcome (option bytes))
    (path : str) : M unit :=
  let* data := call ev answer in
  match data with
  | Some png => write_bytes path png
  | None => ret tt
  end.

Definition capture_page (env : Env) (url : str) (selector : option str)
    (width height : Z) : M (option str) :=
  let* _ := call ENewPage (browser_newPage env) in
  let* _ := call (ESetViewport width height)
                 (page_setViewport env width height) in
  let* _ := call ESetUserAgent (page_setUserAgent env) in
  let* _ := call (EGoto url) (page_goto env url) in
  let* selector :=
    match selector with
    | Some s =>
        if truthy s then
          let selectors := map strip (split_char 44%N s) in
          let* found := first_visible env selectors in
          match found with
          | Some sel => ret (Some sel)
          | None => ret selector
          end
        else ret selector
    | None => ret selector
    end in
  let* _ := temp_dir_mkdir env in
  let image_path :=
    temp_file env (u "screenshot_" ++ timestamp env ++ u ".png") in
  let* screenshot_taken :=
    match selector with
    | Some s =>
        if truthy s then
          try_except (
            let* element := call (EQuerySelector s)
                                 (page_querySelector env s) in
            if element : bool then
              let* box := call (EEvaluate s) (page_evaluate_box env s) in
              match box with
              | Some (w, h) =>
                  if (0 <? w)%Z && (0 <? h)%Z then
                    let* _ := take_shot (EElementScreenshot s image_path)
                                (element_screenshot env s image_path)
                                image_path in
                    ret true
                  else ret false
              | None => ret false
              end
            else ret false)
          (fun _ => ret false)
        else ret false
    | None => ret false
    end in
  let* _ :=
    if screenshot_taken : bool then ret tt
    else take_shot (EPageScreenshot image_path)
           (page_screenshot env image_path) image_path in
  let* present := path_exists image_path in
  if present : bool then
    let* file_size := st_size image_path in
    if (file_size <? 1000)%Z then ret None else ret (Some image_path)
  else ret None.

Definition _capture_screenshot (env : Env) (url : str)
    (selector : option str) (width height : Z) : M (option str) :=
  if negb (launch_imported env) then ret None
  else
    match chromium_executable env with
    | None => ret None
    | Some executable_path =>
        if negb (truthy executable_path) then ret None
        else
          let* _ := call (ELaunch executable_path)
                         (browser_launch env executable_path) in
          try_finally
            (try_except (capture_page env url selector width height)
                        (fun _ => ret None))
            (call EBrowserClose (browser_close env))
    end.

(** ** generate_screenshot *)

(** The two nested loops that pick a symbol: the first listed symbol that
    occurs in an item's text, items being read until the pick differs from
    the initial value. *)
Fixpoint scan_symbol (fold_case : str -> str) (symbols : list str)
    (initial : str) (news_items : list NewsItem) : str :=
  match news_items with
  | [] => initial
  | item :: rest =>
      let combined := fold_case (title item ++ u " " ++ description item) in
      match List.find (fun sym => contains sym combined) symbols with
      | Some sym =>
          if str_eqb sym initial
          then scan_symbol fold_case symbols initial rest
          else sym
      | None => scan_symbol fold_case symbols initial rest
      end
  end.

(** asyncio.run, and run_coroutine_threadsafe(...).result() in the other
    branch, run the coroutine to its end and hand on its result or its
    exception: the call of _capture_screenshot stands for both. *)
Definition generate_screenshot (env : Env) (news_items : list NewsItem)
    (target : str) : M (option str) :=
  let target := if truthy target then target else u "crypto-chart" in
  if str_eqb target (u "crypto-chart") then
    let symbol :=
      scan_symbol (str_upper env) CRYPTO_SYMBOLS (u "BTC") news_items in
    let* chart_image := _download_chart_image env symbol in
    if truthy_opt chart_image then ret chart_image
    else if negb (launch_imported env) then ret None
    else
      _capture_screenshot env
        (u "https://coinmarketcap.com/currencies/" ++ str_lower env symbol
           ++ u "/")
        (Some (u ".cmc-chart-container, .price-chart-container, canvas"))
        1200 600
  else if str_eqb target (u "crypto-ticker") then
    let symbol :=
      scan_symbol (str_lower env) COINGECKO_IDS (u "bitcoin") news_items in
    if negb (launch_imported env) then ret None
    else
      _capture_screenshot env
        (u "https://www.coingecko.com/en/coins/" ++ symbol)
        (Some (u ".gecko-coin-detail-header"))
        1200 400
  else
    if negb (launch_imported env) then ret None
    else
      match news_items with
      | [] => raise IndexError
      | item :: _ =>
          _capture_screenshot env
            (if truthy (url item) then url item
             else u "https://news.ycombinator.com")
            (Some (u "article, main, .article-content, .post-content"))
            1200 800
      end.

(* ===================================================================== *)
(** * Publishing                                                         *)
(* ===================================================================== *)

(** Result dictionaries: string keys, the values above. *)
Definition kv (key : string) (v : pyval) : string * pyval := (key, v).
Definition dict (items : list (string * pyval)) : gmap string pyval :=
  list_to_map items.
(** d.update(other) *)
Definition dict_update (d : gmap string pyval)
    (other : list (string * pyval)) : gmap string pyval :=
  fold_left (fun acc item => <[item.1 := item.2]> acc) other d.

Definition upload_to_uploadme (env : Env) (media_path : str)
  : M (option str) :=
  let* present := path_exists media_path in
  if negb (truthy_opt (uploadme_api_key env)) || negb present then ret None
  else
    try_except
      (call (EUploadMePost media_path) (uploadme_post env media_path))
      (fun _ => ret None).

Definition tweet_result (tweet_id : option str) (tweet_text : str)
    (image_url : option str) : gmap string pyval :=
  dict [ kv "success" (PBool true);
         kv "tweetId" (of_optional tweet_id);
         kv "tweetText" (PStr tweet_text);
         kv "imageUrl" (of_optional image_url) ].

(** The text posted once the image host has answered with image_url. *)
Definition text_with_link (text image_url : str) : str :=
  let available := (280 - len image_url - 1)%Z in
  let final_text :=
    if (len text >? available)%Z
    then slice_to (available - 3) text ++ u "..."
    else text in
  final_text ++ [NL] ++ image_url.

(** post_tweet.  The try statement either returns from the function
    (left) or leaves image_url and final_text for the text-only post
    after it (right). *)
Definition post_tweet (env : Env) (text : str) (media_path : option str)
  : M (gmap string pyval) :=
  let* with_media :=
    match media_path with
    | Some p => if truthy p then path_exists p else ret false
    | None => ret false
    end in
  let* after_try :=
    match media_path with
    | Some p =>
        if with_media : bool then
          let* r := attempt (
            let* media := call (EMediaUpload p) (media_upload env p) in
            let* tweet_id :=
              call (ECreateTweet text (Some [media]))
                   (create_tweet env text (Some [media])) in
            let* _ := unlink p in
            ret (tweet_result tweet_id text None)) in
          match r with
          | Return result => ret (inl result)
          | Raise Forbidden =>
              let* image_url := upload_to_uploadme env p in
              let* _ := unlink p in
              if truthy_opt image_url
              then ret (inr (image_url,
                             text_with_link text (default [] image_url)))
              else ret (inr (image_url, text))
          | Raise _ =>
              let* _ := unlink p in
              ret (inr (None, text))
          end
        else ret (inr (None, text))
    | None => ret (inr (None, text))
    end in
  match after_try with
  | inl result => ret result
  | inr (image_url, final_text) =>
      let* tweet_id :=
        call (ECreateTweet final_text None)
             (create_tweet env final_text None) in
      ret (tweet_result tweet_id final_text image_url)
  end.

(* ===================================================================== *)
(** * run                                                                *)
(* ===================================================================== *)

Definition fetch_crypto_news (env : Env) : M (list NewsItem) :=
  call EFetchCrypto (Return (crypto_news env)).
Definition fetch_world_news (env : Env) : M (list NewsItem) :=
  call EFetchWorld (Return (world_news env)).

Definition prepare_media (env : Env) (opts : Options)
    (news_items : list NewsItem) (headline : str) (key_points : list str)
  : M (option str) :=
  if use_image opts then
    if use_openai_image_only opts
    then generate_ai_image env headline key_points
    else
      let gen_type :=
        str_lower env (if truthy (image_generation_type opts)
                       then image_generation_type opts else u "ai") in
      if str_eqb gen_type (u "screenshot")
      then generate_screenshot env news_items (screenshot_target opts)
      else if str_eqb gen_type (u "both")
      then
        let* media_path := generate_ai_image env headline key_points in
        if truthy_opt media_path then ret media_path
        else generate_screenshot env news_items (screenshot_target opts)
      else generate_ai_image env headline key_points
  else ret None.

Definition no_news : gmap string pyval :=
  dict [ kv "success" (PBool false);
         kv "error" (PStr (u "No news items found")) ].

Definition preview (tweet_text format_used : str) : gmap string pyval :=
  dict [ kv "success" (PBool true);
         kv "dryRun" (PBool true);
         kv "tweetText" (PStr tweet_text);
         kv "format" (PStr format_used) ].

(** The first block of run: the items of the enabled categories. *)
Definition gather_news (env : Env) (opts : Options) : M (list NewsItem) :=
  let* crypto :=
    if crypto_news_enabled opts then fetch_crypto_news env else ret [] in
  let* world :=
    if world_news_enabled opts then fetch_world_news env else ret [] in
  ret (crypto ++ world).

Definition run (env : Env) (opts : Options) : M (gmap string pyval) :=
  let* news_items := gather_news env opts in
  match news_items with
  | [] => ret no_news
  | _ :: _ =>
      let* summary := summarize_news env news_items in
      let '(headline, key_points) := summary in
      let '(tweet_text, format_used) :=
        build_tweet_text headline key_points in
      let* media_path :=
        prepare_media env opts news_items headline key_points in
      if dry_run opts then
        let* _ :=
          match media_path with
          | Some p => if truthy p then unlink p else ret tt
          | None => ret tt
          end in
        ret (preview tweet_text format_used)
      else
        let* post_result := post_tweet env tweet_text media_path in
        ret (dict_update post_result
               [ kv "headline" (PStr headline);
                 kv "keyPoints" (PList key_points);
                 kv "format" (PStr format_used) ])
  end.

(* ===================================================================== *)
(** * Vocabulary of the statements                                       *)
(* ===================================================================== *)

(** The outcomes of the chat completion after which summarize_news
    returns: an answer, or the one exception class its except clause
    names. *)
Definition absorbed {A} (r : outcome A) : Prop :=
  match r with
  | Return _ => True
  | Raise OpenAIError => True
  | Raise _ => False
  end.

(** The items[1:4] fallback of the except branch. *)
Definition later_titles (rest : list NewsItem) : list str :=
  match titles (take 3 rest) with
  | [] => [u "Stay informed"]
  | ps => ps
  end.

Definition after_chat (news_items : list NewsItem) (w : World) : World :=
  {| fs := fs w;
     trace := trace w ++ [EChatCompletion (messages news_items)] |}.

(** The truncation of post_tweet in natural numbers: with a link of at
    most 276 characters the slice bound available - 3 is not negative. *)
Definition link_body (text image_url : str) : str :=
  let available := 279 - length image_url in
  if length text <=? available then text
  else take (available - 3) text ++ u "...".

(** The two ways the try block of post_tweet ends in the Forbidden
    handler. *)
Definition upload_forbidden (env : Env) (text media_path : str) : Prop :=
  media_upload env media_path = Raise Forbidden \/
  exists media,
    media_upload env media_path = Return media /\
    create_tweet env text (Some [media]) = Raise Forbidden.

(** The outside calls of post_tweet: the two platform calls and the image
    host. *)
Definition is_publisher_call (ev : Event) : bool :=
  match ev with
  | EMediaUpload _ | ECreateTweet _ _ | EUploadMePost _ => true
  | _ => false
  end.

Definition no_publisher_call (evs : list Event) : Prop :=
  Forall (fun ev => is_publisher_call ev = false) evs.

(** w' continues w by calls that are not the publisher's. *)
Definition extends_quietly (w w' : World) : Prop :=
  exists evs, trace w' = trace w ++ evs /\ no_publisher_call evs.

Definition quiet {A} (m : M A) : Prop :=
  forall w, extends_quietly w (snd (m w)).

(** The items run gathers, and the calls it makes for them. *)
Definition gathered (env : Env) (opts : Options) : list NewsItem :=
  (if crypto_news_enabled opts then crypto_news env else [])
    ++ (if world_news_enabled opts then world_news env else []).

Definition fetch_calls (opts : Options) : list Event :=
  (if crypto_news_enabled opts then [EFetchCrypto] else [])
    ++ (if world_news_enabled opts then [EFetchWorld] else []).

(** What a computation guarantees of the value it returns. *)
Definition ensures {A} (m : M A) (Q : A -> World -> Prop) : Prop :=
  forall w a w', m w = (Return a, w') -> Q a w'.

Definition path_present (r : option str) (w : World) : Prop :=
  forall p, r = Some p -> is_Some (fs w !! p).

(* ===================================================================== *)
(** * Concrete environments for the examples                             *)
(* ===================================================================== *)

Definition sample_item (headline : str) : NewsItem :=
  {| title := headline;
     description := headline;
     url := u "https://example.org/story";
     published_at := u "2024-05-01T12:00:00";
     source := u "Example Wire" |}.

(** An environment given by the answers that vary between the examples:
    the chat completion, the Pillow rendering, the browser launch, the
    platform media upload, the image host and the crypto news list.  The
    chart download is refused and every other browser step succeeds. *)
Definition sample_env (chat : outcome (option str))
    (rendered : outcome bytes) (launched : outcome unit)
    (uploaded : outcome Z) (hosted : outcome (option str))
    (news : list NewsItem) : Env :=
  {| str_upper := ascii_upper;
     str_lower := ascii_lower;
     gettempdir := u "/tmp";
     utcnow_timestamp := 1714564800%Z;
     temp_dir_created := Return tt;
     crypto_news := news;
     world_news := [];
     chat_completions_create := fun _ => chat;
     pillow_render := fun _ _ _ => rendered;
     requests_get := fun _ => Return (404%Z, []);
     launch_imported := true;
     chromium_executable := Some (u "/usr/bin/chromium");
     browser_launch := fun _ => launched;
     browser_newPage := Return tt;
     page_setViewport := fun _ _ => Return tt;
     page_setUserAgent := Return tt;
     page_goto := fun _ => Return tt;
     page_waitForSelector := fun _ => Return tt;
     page_querySelector := fun _ => Return true;
     page_evaluate_box := fun _ => Return (Some (640%Z, 480%Z));
     element_screenshot := fun _ _ => Return (Some (repeat 0%N 2048));
     page_screenshot := fun _ => Return (Some (repeat 0%N 2048));
     browser_close := Return tt;
     media_upload := fun _ => uploaded;
     create_tweet := fun _ _ => Return (Some (u "1790000000000000001"));
     uploadme_api_key := Some (u "key");
     uploadme_post := fun _ => hosted |}.

Definition empty_world : World := {| fs := ∅; trace := [] |}.

Definition sample_options (dry : bool) (gen_type : str) : Options :=
  {| use_image := true;
     image_generation_type := gen_type;
     screenshot_target := u "crypto-ticker";
     crypto_news_enabled := true;
     world_news_enabled := true;
     dry_run := dry;
     use_openai_image_only := false |}.

(** A model answer in the requested format, and one without structure. *)
Definition structured_answer : str :=
  u "HEADLINE: BREAKING TOP OF THE HOUR: ETH rallies" ++ [NL]
    ++ u "KEY POINTS:" ++ [NL]
    ++ BULLET ++ u " ETH up 8%" ++ [NL]
    ++ BULLET ++ u " Volume doubles".

Definition unstructured_answer : str :=
  u "Sorry, I cannot help with that.".

(** A media file on disk, a hosted link of 40 characters, and one of 277
    characters. *)
Definition media_file : str := u "/tmp/twitter_bot/chart_BTC_1714564800.png".

Definition world_with_media : World :=
  {| fs := {[ media_file := repeat 0%N 2048 ]}; trace := [] |}.

Definition hosted_url : str := u "https://uploadme.me/i/2024/chart-btc.png".

Definition oversized_url : str := u "https://uploadme.me/i/" ++ repeat 97%N 255.

Definition forbidden_env (link : str) : Env :=
  sample_env (Return (Some structured_answer)) (Return (repeat 0%N 2048))
    (Return tt) (Raise Forbidden) (Return (Some link)) [].

(* ===================================================================== *)
(** * Vocabulary of the further statements                               *)
(* ===================================================================== *)

(** Every outside call a computation makes satisfies P. *)
Definition emits (P : Event -> Prop) {A} (m : M A) : Prop :=
  forall w, exists evs, trace (snd (m w)) = trace w ++ evs /\ Forall P evs.

(** A computation that creates, changes and removes no file. *)
Definition keeps_files {A} (m : M A) : Prop :=
  forall w, fs (snd (m w)) = fs w.

(** The test that opens the media branch of post_tweet. *)
Definition media_usable (media_path : option str) (w : World) : bool :=
  match media_path with
  | Some p => truthy p && bool_decide (is_Some (fs w !! p))
  | None => false
  end.

(** What upload_to_uploadme answers for a file that exists. *)
Definition hosted_link (env : Env) (media_path : str) : option str :=
  if truthy_opt (uploadme_api_key env) then
    match uploadme_post env media_path with
    | Return link => link
    | Raise _ => None
    end
  else None.

(** The try block of post_tweet ends in the handler of the other
    exceptions. *)
Definition upload_broken (env : Env) (text media_path : str) : Prop :=
  (exists e, media_upload env media_path = Raise e /\ e <> Forbidden) \/
  (exists media e,
     media_upload env media_path = Return media /\
     create_tweet env text (Some [media]) = Raise e /\ e <> Forbidden).

(** A publisher call whose tweet, if it is one, has at most 280
    characters. *)
Definition publisher_call_within_limit (ev : Event) : Prop :=
  match ev with
  | ECreateTweet text _ => length text <= 280
  | EMediaUpload _ | EUploadMePost _ => True
  | _ => False
  end.

(** The world after one more outside call, and after an unlink. *)
Definition logged (ev : Event) (w : World) : World :=
  {| fs := fs w; trace := trace w ++ [ev] |}.
Definition without_file (p : str) (w : World) : World :=
  {| fs := delete p (fs w); trace := trace w |}.

(** The text-only post that ends post_tweet. *)
Definition post_finish (env : Env) (final_text : str)
    (image_url : option str) (w : World)
  : outcome (gmap string pyval) * World :=
  (match create_tweet env final_text None with
   | Return tweet_id => Return (tweet_result tweet_id final_text image_url)
   | Raise e => Raise e
   end,
   logged (ECreateTweet final_text None) w).

(** post_tweet from the moment its try block has raised e, the media file
    still being on disk. *)
Definition post_after_failure (env : Env) (text media_path : str) (e : exn)
    (w : World) : outcome (gmap string pyval) * World :=
  match e with
  | Forbidden =>
      let link := hosted_link env media_path in
      let asked :=
        if truthy_opt (uploadme_api_key env)
        then logged (EUploadMePost media_path) w else w in
      post_finish env
        (if truthy_opt link then text_with_link text (default [] link)
         else text)
        link (without_file media_path asked)
  | _ => post_finish env text None (without_file media_path w)
  end.

(** The environment env with one answer replaced. *)
Definition with_create_tweet (env : Env) (v : str -> option (list Z) -> outcome (option str)) : Env :=
  {| str_upper := str_upper env;
     str_lower := str_lower env;
     gettempdir := gettempdir env;
     utcnow_timestamp := utcnow_timestamp env;
     temp_dir_created := temp_dir_created env;
     crypto_news := crypto_news env;
     world_news := world_news env;
     chat_completions_create := chat_completions_create env;
     pillow_render := pillow_render env;
     requests_get := requests_get env;
     launch_imported := launch_imported env;
     chromium_executable := chromium_executable env;
     browser_launch := browser_launch env;
     browser_newPage := browser_newPage env;
     page_setViewport := page_setViewport env;
     page_setUserAgent := page_setUserAgent env;
     page_goto := page_goto env;
     page_waitForSelector := page_waitForSelector env;
     page_querySelector := page_querySelector env;
     page_evaluate_box := page_evaluate_box env;
     element_screenshot := element_screenshot env;
     page_screenshot := page_screenshot env;
     browser_close := browser_close env;
     media_upload := media_upload env;
     create_tweet := v;
     uploadme_api_key := uploadme_api_key env;
     uploadme_post := uploadme_post env |}.

Definition with_uploadme_api_key (env : Env) (v : option str) : Env :=
  {| str_upper := str_upper env;
     str_lower := str_lower env;
     gettempdir := gettempdir env;
     utcnow_timestamp := utcnow_timestamp env;
     temp_dir_created := temp_dir_created env;
     crypto_news := crypto_news env;
     world_news := world_news env;
     chat_completions_create := chat_completions_create env;
     pillow_render := pillow_render env;
     requests_get := requests_get env;
     launch_imported := launch_imported env;
     chromium_executable := chromium_executable env;
     browser_launch := browser_launch env;
     browser_newPage := browser_newPage env;
     page_setViewport := page_setViewport env;
     page_setUserAgent := page_setUserAgent env;
     page_goto := page_goto env;
     page_waitForSelector := page_waitForSelector env;
     page_querySelector := page_querySelector env;
     page_evaluate_box := page_evaluate_box env;
     element_screenshot := element_screenshot env;
     page_screenshot := page_screenshot env;
     browser_close := browser_close env;
     media_upload := media_upload env;
     create_tweet := create_tweet env;
     uploadme_api_key := v;
     uploadme_post := uploadme_post env |}.

Definition with_browser_close (env : Env) (v : outcome unit) : Env :=
  {| str_upper := str_upper env;
     str_lower := str_lower env;
     gettempdir := gettempdir env;
     utcnow_timestamp := utcnow_timestamp env;
     temp_dir_created := temp_dir_created env;
     crypto_news := crypto_news env;
     world_news := world_news env;
     chat_completions_create := chat_completions_create env;
     pillow_render := pillow_render env;
     requests_get := requests_get env;
     launch_imported := launch_imported env;
     chromium_executable := chromium_executable env;
     browser_launch := browser_launch env;
     browser_newPage := browser_newPage env;
     page_setViewport := page_setViewport env;
     page_setUserAgent := page_setUserAgent env;
     page_goto := page_goto env;
     page_waitForSelector := page_waitForSelector env;
     page_querySelector := page_querySelector env;
     page_evaluate_box := page_evaluate_box env;
     element_screenshot := element_screenshot env;
     page_screenshot := page_screenshot env;
     browser_close := v;
     media_upload := media_upload env;
     create_tweet := create_tweet env;
     uploadme_api_key := uploadme_api_key env;
     uploadme_post := uploadme_post env |}.

Definition with_requests_get (env : Env) (v : str -> outcome (Z * bytes)) : Env :=
  {| str_upper := str_upper env;
     str_lower := str_lower env;
     gettempdir := gettempdir env;
     utcnow_timestamp := utcnow_timestamp env;
     temp_dir_created := temp_dir_created env;
     crypto_news := crypto_news env;
     world_news := world_news env;
     chat_completions_create := chat_completions_create env;
     pillow_render := pillow_render env;
     requests_get := v;
     launch_imported := launch_imported env;
     chromium_executable := chromium_executable env;
     browser_launch := browser_launch env;
     browser_newPage := browser_newPage env;
     page_setViewport := page_setViewport env;
     page_setUserAgent := page_setUserAgent env;
     page_goto := page_goto env;
     page_waitForSelector := page_waitForSelector env;
     page_querySelector := page_querySelector env;
     page_evaluate_box := page_evaluate_box env;
     element_screenshot := element_screenshot env;
     page_screenshot := page_screenshot env;
     browser_close := browser_close env;
     media_upload := media_upload env;
     create_tweet := create_tweet env;
     uploadme_api_key := uploadme_api_key env;
     uploadme_post := uploadme_post env |}.

Definition with_launch_imported (env : Env) (v : bool) : Env :=
  {| str_upper := str_upper env;
     str_lower := str_lower env;
     gettempdir := gettempdir env;
     utcnow_timestamp := utcnow_timestamp env;
     temp_dir_created := temp_dir_created env;
     crypto_news := crypto_news env;
     world_news := world_news env;
     chat_completions_create := chat_completions_create env;
     pillow_render := pillow_render env;
     requests_get := requests_get env;
     launch_imported := v;
     chromium_executable := chromium_executable env;
     browser_launch := browser_launch env;
     browser_newPage := browser_newPage env;
     page_setViewport := page_setViewport env;
     page_setUserAgent := page_setUserAgent env;
     page_goto := page_goto env;
     page_waitForSelector := page_waitForSelector env;
     page_querySelector := page_querySelector env;
     page_evaluate_box := page_evaluate_box env;
     element_screenshot := element_screenshot env;
     page_screenshot := page_screenshot env;
     browser_close := browser_close env;
     media_upload := media_upload env;
     create_tweet := create_tweet env;
     uploadme_api_key := uploadme_api_key env;
     uploadme_post := uploadme_post env |}.

Definition with_page_waitForSelector (env : Env) (v : str -> outcome unit) : Env :=
  {| str_upper := str_upper env;
     str_lower := str_lower env;
     gettempdir := gettempdir env;
     utcnow_timestamp := utcnow_timestamp env;
     temp_dir_created := temp_dir_created env;
     crypto_news := crypto_news env;
     world_news := world_news env;
     chat_completions_create := chat_completions_create env;
     pillow_render := pillow_render env;
     requests_get := requests_get env;
     launch_imported := launch_imported env;
     chromium_executable := chromium_executable env;
     browser_launch := browser_launch env;
     browser_newPage := browser_newPage env;
     page_setViewport := page_setViewport env;
     page_setUserAgent := page_setUserAgent env;
     page_goto := page_goto env;
     page_waitForSelector := v;
     page_querySelector := page_querySelector env;
     page_evaluate_box := page_evaluate_box env;
     element_screenshot := element_screenshot env;
     page_screenshot := page_screenshot env;
     browser_close := browser_close env;
     media_upload := media_upload env;
     create_tweet := create_tweet env;
     uploadme_api_key := uploadme_api_key env;
     uploadme_post := uploadme_post env |}.

Definition with_temp_dir_created (env : Env) (v : outcome unit) : Env :=
  {| str_upper := str_upper env;
     str_lower := str_lower env;
     gettempdir := gettempdir env;
     utcnow_timestamp := utcnow_timestamp env;
     temp_dir_created := v;
     crypto_news := crypto_news env;
     world_news := world_news env;
     chat_completions_create := chat_completions_create env;
     pillow_render := pillow_render env;
     requests_get := requests_get env;
     launch_imported := launch_imported env;
     chromium_executable := chromium_executable env;
     browser_launch := browser_launch env;
     browser_newPage := browser_newPage env;
     page_setViewport := page_setViewport env;
     page_setUserAgent := page_setUserAgent env;
     page_goto := page_goto env;
     page_waitForSelector := page_waitForSelector env;
     page_querySelector := page_querySelector env;
     page_evaluate_box := page_evaluate_box env;
     element_screenshot := element_screenshot env;
     page_screenshot := page_screenshot env;
     browser_close := browser_close env;
     media_upload := media_upload env;
     create_tweet := create_tweet env;
     uploadme_api_key := uploadme_api_key env;
     uploadme_post := uploadme_post env |}.


(** The lines the parsing loop of summarize_news acts on. *)
Definition is_headline_line (line : str) : bool :=
  startswith HEADLINE_TAG line.
Definition is_point_line (line : str) : bool :=
  negb (startswith HEADLINE_TAG line) && startswith BULLET (strip line).
Definition clean_point (line : str) : str :=
  strip_chars (BULLET ++ u " ") line.
Definition headline_of_line (line : str) : str :=
  strip (drop (length HEADLINE_TAG) line).

(** The URL _download_chart_image asks and the path it writes. *)
Definition chart_url (env : Env) (symbol : str) : str :=
  u "https://www.coingecko.com/coins/"
    ++ dict_get symbol_to_id (str_upper env symbol) (u "bitcoin")
    ++ u "/sparkline.png".
Definition chart_path (env : Env) (symbol : str) : str :=
  temp_file env (u "chart_" ++ symbol ++ u "_" ++ timestamp env ++ u ".png").

(** The path _capture_screenshot writes. *)
Definition screenshot_path (env : Env) : str :=
  temp_file env (u "screenshot_" ++ timestamp env ++ u ".png").

(** The path generate_ai_image writes for a font. *)
Definition overlay_path (env : Env) (font_name : str) : str :=
  temp_file env (u "news_overlay_" ++ str_lower env font_name ++ u "_"
                   ++ timestamp env ++ u ".png").

(** A returned path leads to a file of at least 1000 bytes. *)
Definition sizeable_file (r : option str) (w : World) : Prop :=
  forall p, r = Some p ->
    exists data, fs w !! p = Some data /\ 1000 <= length data.

(** The answer of an oracle is a value, not an exception. *)
Definition returns {A} (r : outcome A) : bool :=
  match r with Return _ => true | Raise _ => false end.

(** The text of an item in which generate_screenshot looks for a symbol. *)
Definition item_text (item : NewsItem) : str :=
  title item ++ u " " ++ description item.

Definition is_pillow_render (ev : Event) : Prop :=
  exists font_name, ev = EPillowRender font_name.

(** What summarize_news returns or raises; it does not depend on the
    world. *)
Definition summary_of (env : Env) (news_items : list NewsItem)
  : outcome (str * list str) :=
  match news_items with
  | [] => Return (u "Latest news update", [u "Stay informed"])
  | first :: rest =>
      match chat_completions_create env (messages news_items) with
      | Raise OpenAIError => Return (title first, later_titles rest)
      | Raise e => Raise e
      | Return response =>
          let parsed := parse_summary (default [] response) in
          Return (if truthy (fst parsed) then fst parsed else title first,
                  take 3 (match snd parsed with
                          | [] => titles (take 3 news_items)
                          | _ => snd parsed
                          end))
      end
  end.

(** The keys run adds to the result of post_tweet. *)
Definition run_metadata (headline : str) (key_points : list str)
    (format_used : str) : list (string * pyval) :=
  [ kv "headline" (PStr headline);
    kv "keyPoints" (PList key_points);
    kv "format" (PStr format_used) ].

(** An outside call that is not a post of more than 280 characters. *)
Definition tweet_within_limit (ev : Event) : Prop :=
  match ev with
  | ECreateTweet text _ => length text <= 280
  | _ => True
  end.

(* ===================================================================== *)
(** * _extract_hashtags                                                  *)
(* ===================================================================== *)

(** The dictionary crypto_keywords in the order the source lists it,
    which is the order its items are visited. *)
Definition crypto_keywords : list (str * str) :=
  [ (u "BITCOIN", u "#Bitcoin"); (u "BTC", u "#Bitcoin");
    (u "ETHEREUM", u "#Ethereum"); (u "ETH", u "#Ethereum");
    (u "SOLANA", u "#Solana"); (u "SOL", u "#Solana");
    (u "ZCASH", u "#Zcash"); (u "ZEC", u "#Zcash");
    (u "FIRO", u "#Firo");
    (u "MONERO", u "#Monero"); (u "XMR", u "#Monero");
    (u "NEAR", u "#NEAR"); (u "NEAR PROTOCOL", u "#NEAR");
    (u "UNISWAP", u "#Uniswap"); (u "UNI", u "#Uniswap");
    (u "NFT", u "#NFTs"); (u "NFTs", u "#NFTs"); (u "PENGUIN", u "#NFTs");
    (u "WEB3", u "#Web3") ].

Definition default_hashtags : list str :=
  [u "#Crypto"; u "#Tech"; u "#News"].

(** [x in l] for a list of strings. *)
Definition in_list (x : str) (l : list str) : bool :=
  existsb (str_eqb x) l.

(** if cond and hashtag not in hashtags: hashtags.append(hashtag) *)
Definition append_if_new (cond : bool) (hashtag : str) (hashtags : list str)
  : list str :=
  if cond && negb (in_list hashtag hashtags) then hashtags ++ [hashtag]
  else hashtags.

(** The loop over crypto_keywords.items(). *)
Definition keyword_hashtags (text : str) : list str :=
  fold_left (fun hashtags entry =>
               append_if_new (contains (fst entry) text) (snd entry) hashtags)
            crypto_keywords [].

(** The loop over the defaults. *)
Definition fill_defaults (hashtags : list str) : list str :=
  fold_left (fun tags default =>
               append_if_new (length tags <? 3) default tags)
            default_hashtags hashtags.

Definition select_hashtags (text : str) : list str :=
  let hashtags := keyword_hashtags text in
  match hashtags with
  | [] => default_hashtags
  | _ =>
      if length hashtags <? 3 then
        let hashtags :=
          append_if_new (contains (u "NFT") text || contains (u "PENGUIN") text)
            (u "#NFTs") hashtags in
        let hashtags :=
          append_if_new (contains (u "WEB3") text
                         || contains (u "BLOCKCHAIN") text)
            (u "#Web3") hashtags in
        fill_defaults hashtags
      else hashtags
  end.

Definition _extract_hashtags (env : Env) (headline : str)
    (key_points : list str) : str :=
  let text := str_upper env (headline ++ u " " ++ join (u " ") key_points) in
  join (u " ") (take 3 (select_hashtags text)).

(** A hashtag of the keyword dictionary. *)
Definition keyword_tag (tag : str) : Prop := tag ∈ map snd crypto_keywords.

(** Every hashtag the function can produce. *)
Definition known_hashtags : list str :=
  map snd crypto_keywords ++ default_hashtags.

(* ===================================================================== *)
(** * _wrap_text                                                         *)
(* ===================================================================== *)

(** s.split(): the maximal runs of characters that are not white space.
    Read from the right: a character that is not white space starts a new
    word when white space or the end follows it, and otherwise joins the
    word that follows. *)
Fixpoint split_ws (s : str) : list str :=
  match s with
  | [] => []
  | c :: s' =>
      let rest := split_ws s' in
      if isspace c then rest
      else match s' with
           | [] => [[c]]
           | d :: _ =>
               if isspace d then [c] :: rest
               else match rest with
                    | w :: ws => (c :: w) :: ws
                    | [] => [[c]]
                    end
           end
  end.

(** One turn of the loop over the words; text_width is the width
    font.getbbox gives for a line, bbox[2] - bbox[0]. *)
Definition wrap_step (text_width : str -> Z) (max_width : Z)
    (state : list str * list str) (word : str) : list str * list str :=
  let '(lines, current_line) := state in
  let test_line := join (u " ") (current_line ++ [word]) in
  if (text_width test_line <=? max_width)%Z
  then (lines, current_line ++ [word])
  else (match current_line with
        | [] => lines
        | _ => lines ++ [join (u " ") current_line]
        end,
        [word]).

Definition _wrap_text (text_width : str -> Z) (text : str) (max_width : Z)
  : list str :=
  let '(lines, current_line) :=
    fold_left (wrap_step text_width max_width) (split_ws text) ([], []) in
  let lines :=
    match current_line with
    | [] => lines
    | _ => lines ++ [join (u " ") current_line]
    end in
  match lines with
  | [] => [text]
  | _ => lines
  end.

(** A word: not empty, no white space in it. *)
Definition is_word (w : str) : Prop :=
  w <> [] /\ Forall (fun c => isspace c = false) w.

(** A group of words that _wrap_text puts on one line: it fits the width,
    or it is a single word. *)
Definition good_group (text_width : str -> Z) (max_width : Z)
    (group : list str) : Prop :=
  group <> [] /\
  ((text_width (join (u " ") group) <= max_width)%Z \/ length group = 1).

(* ===================================================================== *)
(** * The bullet points generate_ai_image fits on the card               *)
(* ===================================================================== *)

Definition sum_Z (l : list Z) : Z := fold_right Z.add 0%Z l.

(** The height a bullet point takes: each of its wrapped lines with 12
    pixels of leading, and 8 pixels after the point.  text_height is the
    height font.getbbox gives for a line, bbox[3] - bbox[1]. *)
Definition point_height (text_width text_height : str -> Z)
    (content_width : Z) (point : str) : Z :=
  (sum_Z (map (fun line => text_height line + 12)
              (_wrap_text text_width point content_width)) + 8)%Z.

(** The loop that fills fitted_points, from the height used so far. *)
Fixpoint fit_points (text_width text_height : str -> Z)
    (content_width available_height : Z) (bullet_points : list str)
    (current_height : Z) : list str :=
  match bullet_points with
  | [] => []
  | point :: rest =>
      let point_lines := _wrap_text text_width point content_width in
      let height := point_height text_width text_height content_width point in
      if (current_height + height <=? available_height)%Z then
        point :: fit_points text_width text_height content_width
                   available_height rest (current_height + height)
      else if (current_height <? available_height - 50)%Z then
        let first_line :=
          match point_lines with
          | line :: _ => line
          | [] => slice_to 50 point
          end in
        if (current_height + (text_height first_line + 12)
              <=? available_height)%Z
        then [first_line ++ u "..."]
        else []
      else []
  end.

(* ===================================================================== *)
(** * The service: resolve_config and trigger_run                        *)
(* ===================================================================== *)

Module Service.

Record TwitterCredentials := {
  twitter_api_key : option str;
  twitter_api_secret : option str;
  twitter_access_token : option str;
  twitter_access_secret : option str;
  openai_api_key : option str;
  news_api_key : option str;
  uploadme_api_key : option str;
}.

(** TwitterCredentials() *)
Definition no_credentials : TwitterCredentials :=
  {| twitter_api_key := None; twitter_api_secret := None;
     twitter_access_token := None; twitter_access_secret := None;
     openai_api_key := None; news_api_key := None;
     uploadme_api_key := None |}.

Record RunRequest := {
  credentials : option TwitterCredentials;
  useImage : bool;
  dryRun : bool;
  imageGenerationType : str;
  screenshotTarget : str;
  useOpenAIImageOnly : bool;
  cryptoNewsEnabled : bool;
  worldNewsEnabled : bool;
}.

(** The field defaults of RunRequest, with the credentials given. *)
Definition default_request (creds : option TwitterCredentials) : RunRequest :=
  {| credentials := creds;
     useImage := true;
     dryRun := true;
     imageGenerationType := u "screenshot";
     screenshotTarget := u "crypto-chart";
     useOpenAIImageOnly := false;
     cryptoNewsEnabled := true;
     worldNewsEnabled := true |}.

(** The config dictionary. *)
Record Config := {
  cfg_twitter_api_key : str;
  cfg_twitter_api_secret : str;
  cfg_twitter_access_token : str;
  cfg_twitter_access_secret : str;
  cfg_openai_api_key : str;
  cfg_news_api_key : option str;
  cfg_uploadme_api_key : option str;
  cfg_crypto_news_enabled : bool;
  cfg_world_news_enabled : bool;
  cfg_image_generation_type : str;
  cfg_screenshot_target : str;
}.

(** given or os.getenv(name, default), the default being the empty string *)
Definition or_getenv (environ : str -> option str) (given : option str)
    (name : str) : str :=
  if truthy_opt given then default [] given
  else default [] (environ name).

(** given or os.getenv(name) *)
Definition or_getenv_opt (environ : str -> option str) (given : option str)
    (name : str) : option str :=
  if truthy_opt given then given else environ name.

Definition build_config (environ : str -> option str) (req : RunRequest)
  : Config :=
  let creds := default no_credentials (credentials req) in
  {| cfg_twitter_api_key :=
       or_getenv environ (twitter_api_key creds) (u "TWITTER_API_KEY");
     cfg_twitter_api_secret :=
       or_getenv environ (twitter_api_secret creds) (u "TWITTER_API_SECRET");
     cfg_twitter_access_token :=
       or_getenv environ (twitter_access_token creds)
         (u "TWITTER_ACCESS_TOKEN");
     cfg_twitter_access_secret :=
       or_getenv environ (twitter_access_secret creds)
         (u "TWITTER_ACCESS_SECRET");
     cfg_openai_api_key :=
       or_getenv environ (openai_api_key creds) (u "OPENAI_API_KEY");
     cfg_news_api_key :=
       or_getenv_opt environ (news_api_key creds) (u "NEWS_API_KEY");
     cfg_uploadme_api_key :=
       or_getenv_opt environ (uploadme_api_key creds) (u "UPLOADME_API_KEY");
     cfg_crypto_news_enabled := cryptoNewsEnabled req;
     cfg_world_news_enabled := worldNewsEnabled req;
     cfg_image_generation_type := imageGenerationType req;
     cfg_screenshot_target := screenshotTarget req |}.

(** The five keys that must not be empty, with their values. *)
Definition required (config : Config) : list (str * str) :=
  [ (u "twitter_api_key", cfg_twitter_api_key config);
    (u "twitter_api_secret", cfg_twitter_api_secret config);
    (u "twitter_access_token", cfg_twitter_access_token config);
    (u "twitter_access_secret", cfg_twitter_access_secret config);
    (u "openai_api_key", cfg_openai_api_key config) ].

Definition missing (config : Config) : list str :=
  map fst (List.filter (fun entry => negb (truthy (snd entry)))
                       (required config)).

(** What resolve_config does: it returns the config, or raises
    HTTPException with a status code and a detail. *)
Inductive resolved :=
  | Resolved (config : Config)
  | HTTPException (status_code : Z) (detail : str).

Definition resolve_config (environ : str -> option str) (req : RunRequest)
  : resolved :=
  let config := build_config environ req in
  match missing config with
  | [] => Resolved config
  | keys =>
      HTTPException 400
        (u "Missing credentials: " ++ join (u ", ") keys)
  end.

(** The response model: success is required, the other fields are
    optional. *)
Record RunResponse := {
  success : bool;
  resp_dryRun : option bool;
  resp_tweetText : option str;
  resp_tweetId : option str;
  resp_imageUrl : option str;
  resp_error : option str;
  resp_format : option str;
}.

(** An Optional[str] field of the response from the result dictionary:
    absent or None gives None, a string gives itself, anything else is a
    validation error (the outer None). *)
Definition optional_str (v : option pyval) : option (option str) :=
  match v with
  | None | Some PNone => Some None
  | Some (PStr s) => Some (Some s)
  | Some _ => None
  end.

Definition optional_bool (v : option pyval) : option (option bool) :=
  match v with
  | None | Some PNone => Some None
  | Some (PBool b) => Some (Some b)
  | Some _ => None
  end.

(** The response model built from the result dictionary: keys that are
    no field of the model are ignored; None stands for a validation
    error. *)
Definition to_response (result : gmap string pyval) : option RunResponse :=
  match result !! "success" with
  | Some (PBool ok) =>
      d ← optional_bool (result !! "dryRun");
      text ← optional_str (result !! "tweetText");
      id ← optional_str (result !! "tweetId");
      image ← optional_str (result !! "imageUrl");
      err ← optional_str (result !! "error");
      fmt ← optional_str (result !! "format");
      Some {| success := ok; resp_dryRun := d; resp_tweetText := text;
              resp_tweetId := id; resp_imageUrl := image; resp_error := err;
              resp_format := fmt |}
  | _ => None
  end.

(** The options trigger_run hands to run: it gives all seven keys, so
    opts.update(options) replaces every default that run reads. *)
Definition request_options (req : RunRequest) : Options :=
  {| use_image := useImage req;
     image_generation_type := imageGenerationType req;
     screenshot_target := screenshotTarget req;
     crypto_news_enabled := cryptoNewsEnabled req;
     world_news_enabled := worldNewsEnabled req;
     dry_run := dryRun req;
     use_openai_image_only := useOpenAIImageOnly req |}.

(** What trigger_run hands back to the web framework. *)
Inductive served :=
  | Responded (response : RunResponse)
  | BadRequest (status_code : Z) (detail : str)
  | InvalidResponse.

(** trigger_run.  The bot is built from the resolved config, whose
    uploadme_api_key is the one upload_to_uploadme reads. *)
Definition trigger_run (environ : str -> option str) (env : Env)
    (req : RunRequest) : M served :=
  match resolve_config environ req with
  | HTTPException status_code detail => ret (BadRequest status_code detail)
  | Resolved config =>
      let bot := with_uploadme_api_key env (cfg_uploadme_api_key config) in
      let* result := run bot (request_options req) in
      match to_response result with
      | Some response => ret (Responded response)
      | None => ret InvalidResponse
      end
  end.

End Service.

(* ===================================================================== *)
(** * Properties of the string primitives                                *)
(* ===================================================================== *)

Section StripFacts.
Context {A : Type} (f : A -> bool).

Lemma drop_while_length (l : list A) :
  length (drop_while f l) <= length l.
Proof.
  induction l as [|x l IH]; simpl; [lia|].
  destruct (f x); simpl; lia.
Qed.

Lemma drop_while_snoc_rev (l : list A) (x : A) :
  f x = true -> drop_while f (rev (l ++ [x])) = drop_while f (rev l).
Proof. intros Hx. rewrite rev_app_distr. simpl. now rewrite Hx. Qed.
End StripFacts.

Lemma rstrip_with_length f s : length (rstrip_with f s) <= length s.
Proof.
  unfold rstrip_with. rewrite length_rev.
  etransitivity; [apply drop_while_length|]. now rewrite length_rev.
Qed.

Lemma strip_with_length f s : length (strip_with f s) <= length s.
Proof.
  unfold strip_with, lstrip_with.
  etransitivity; [apply rstrip_with_length|]. apply drop_while_length.
Qed.

Lemma strip_length s : length (strip s) <= length s.
Proof. apply strip_with_length. Qed.

Lemma rstrip_with_snoc f s c :
  f c = true -> rstrip_with f (s ++ [c]) = rstrip_with f s.
Proof. intros Hc. unfold rstrip_with. now rewrite drop_while_snoc_rev. Qed.

(** The headline marker starts with a code point that is not white space,
    so only the right end of a marked text is ever trimmed. *)
Lemma strip_marked s : strip (HEADLINE_MARK ++ s) = rstrip_with isspace (HEADLINE_MARK ++ s).
Proof. reflexivity. Qed.

Lemma strip_minimal headline :
  strip (minimal headline) = rstrip_with isspace (HEADLINE_MARK ++ headline).
Proof.
  unfold minimal. rewrite strip_marked.
  change (HEADLINE_MARK ++ headline ++ [NL; NL])
    with (HEADLINE_MARK ++ headline ++ [NL] ++ [NL]).
  rewrite !app_assoc.
  rewrite rstrip_with_snoc by reflexivity.
  rewrite rstrip_with_snoc by reflexivity.
  reflexivity.
Qed.

Lemma strip_minimal_length headline :
  length (strip (minimal headline)) <= 5 + length headline.
Proof.
  rewrite strip_minimal.
  etransitivity; [apply rstrip_with_length|].
  rewrite length_app. reflexivity.
Qed.

Lemma head_take_succ {A} n (l : list A) : head (take (S n) l) = head l.
Proof. now destruct l. Qed.

(* ===================================================================== *)
(** * build_tweet_text                                                   *)
(* ===================================================================== *)

(** The tier reported is one of the three names. *)
Lemma build_tweet_text_tier headline key_points :
  let tier := snd (build_tweet_text headline key_points) in
  tier = u "full" \/ tier = u "abbreviated" \/ tier = u "minimal".
Proof.
  unfold build_tweet_text.
  repeat (case (_ <=? _)); simpl; auto.
Qed.

(** C1, as the code has it.  The text returned by build_tweet_text has at
    most 280 characters whenever the full or the abbreviated tier is
    chosen; in the minimal tier, which applies no length test and no
    truncation, it has at most 280 characters provided the headline
    marker (five code points in the source) and the headline stripped of
    white space have together at most 280, that is, the stripped headline
    at most 275. *)
Theorem build_tweet_text_within_limit headline key_points :
  (snd (build_tweet_text headline key_points) = u "minimal" ->
   length HEADLINE_MARK + length (strip headline) <= 280) ->
  length (fst (build_tweet_text headline key_points)) <= 280.
Proof.
  unfold build_tweet_text.
  destruct (length (full_format _ _) <=? 260) eqn:Hfull.
  - intros _. simpl. apply Nat.leb_le in Hfull.
    pose proof (strip_length (full_format (strip headline) (take 3 key_points))).
    lia.
  - destruct (length (abbreviated _ _) <=? 280) eqn:Habbr.
    + intros _. simpl. apply Nat.leb_le in Habbr.
      pose proof (strip_length (abbreviated (strip headline) (take 3 key_points))).
      lia.
    + intros Hmin. cbn [fst snd] in *. specialize (Hmin eq_refl).
      pose proof (strip_minimal_length (strip headline)).
      change (length HEADLINE_MARK) with 5 in Hmin. lia.
Qed.

Lemma build_tweet_text_within_limit_witness :
  let headline := repeat 88%N 275 in
  let key_points := [repeat 97%N 50] in
  snd (build_tweet_text headline key_points) = u "minimal" /\
  length HEADLINE_MARK + length (strip headline) <= 280 /\
  length (fst (build_tweet_text headline key_points)) <= 280.
Proof.
  intros headline key_points.
  split; [vm_compute; reflexivity|].
  assert (Hh : length HEADLINE_MARK + length (strip headline) <= 280)
    by (apply Nat.leb_le; vm_compute; reflexivity).
  split; [exact Hh|].
  apply build_tweet_text_within_limit. intros _. exact Hh.
Defined.

(** C1, as the specification states it, fails: a headline of 300 letters
    is returned in the minimal tier as a text of 305 characters. *)
Lemma build_tweet_text_exceeds_limit :
  let headline := repeat 88%N 300 in
  snd (build_tweet_text headline []) = u "minimal" /\
  length (fst (build_tweet_text headline [])) = 305 /\
  ~ length (fst (build_tweet_text headline [])) <= 280.
Proof.
  intros headline.
  assert (Hlen : length (fst (build_tweet_text headline [])) = 305)
    by (vm_compute; reflexivity).
  split; [vm_compute; reflexivity|].
  split; [exact Hlen|]. rewrite Hlen. lia.
Qed.

(** C8.  build_tweet_text is the ordered choice the specification words:
    the full form (marker, stripped headline, the first three points each
    behind its marker, a blank line) when it has at most 260 characters,
    else the abbreviated form (headline and first point) when it has at
    most 280, else the headline alone without any test; the chosen form is
    returned stripped. *)
Theorem build_tweet_text_first_fitting_tier headline key_points :
  build_tweet_text headline key_points = format_by_tiers headline key_points.
Proof.
  unfold build_tweet_text, format_by_tiers, tier_rules, within_budget.
  cbn [List.find tier_form tier_budget tier_name].
  assert (Habbr : abbreviated (strip headline) (take 3 key_points)
                  = HEADLINE_MARK ++ strip headline ++ [NL; NL]
                      ++ from_option (app POINT_MARK) [] (head key_points)
                      ++ [NL; NL]).
  { unfold abbreviated. rewrite <- (head_take_succ 2 key_points).
    now destruct (take 3 key_points). }
  rewrite <- Habbr.
  change (HEADLINE_MARK ++ strip headline ++ [NL; NL]
            ++ join [NL] (bulleted (take 3 key_points)) ++ [NL; NL])
    with (full_format (strip headline) (take 3 key_points)).
  destruct (length (full_format _ _) <=? 260); [reflexivity|].
  destruct (length (abbreviated _ _) <=? 280); reflexivity.
Qed.

(* ===================================================================== *)
(** * summarize_news                                                     *)
(* ===================================================================== *)

(** summarize_news on a non-empty list, branch by branch. *)
Lemma summarize_news_cons env first rest w :
  summarize_news env (first :: rest) w =
    let news_items := first :: rest in
    match chat_completions_create env (messages news_items) with
    | Raise OpenAIError =>
        (Return (title first, later_titles rest), after_chat news_items w)
    | Raise e => (Raise e, after_chat news_items w)
    | Return response =>
        let parsed := parse_summary (default [] response) in
        (Return (if truthy (fst parsed) then fst parsed else title first,
                 take 3 (match snd parsed with
                         | [] => titles (take 3 news_items)
                         | _ => snd parsed
                         end)),
         after_chat news_items w)
    end.
Proof.
  unfold summarize_news, bind, attempt, call, after_chat. cbn zeta.
  destruct (chat_completions_create env (messages (first :: rest))) as [response|e].
  - destruct (parse_summary (default [] response)) as [h kps]. reflexivity.
  - destruct e; reflexivity.
Qed.

Lemma later_titles_bounds rest :
  later_titles rest <> [] /\ length (later_titles rest) <= 3.
Proof.
  unfold later_titles, titles.
  destruct (map title (take 3 rest)) as [|p ps] eqn:E.
  - split; [discriminate | simpl; lia].
  - split; [discriminate|].
    rewrite <- E, length_map, length_take. lia.
Qed.

Lemma take_nonempty {A} n (l : list A) : l <> [] -> take (S n) l <> [].
Proof. destruct l; [congruence | discriminate]. Qed.




(** C9, as the code has it.  For an item list whose first title is not
    empty, summarize_news returns a non-empty headline whenever the chat
    completion answers (with any text) or raises OpenAIError. *)
Theorem summarize_news_headline_nonempty env first rest w :
  title first <> [] ->
  absorbed (chat_completions_create env (messages (first :: rest))) ->
  exists headline key_points w',
    summarize_news env (first :: rest) w
      = (Return (headline, key_points), w') /\
    headline <> [].
Proof.
  intros Htitle Habs. rewrite summarize_news_cons. cbn zeta.
  destruct (chat_completions_create env (messages (first :: rest)))
    as [response|e].
  - eexists _, _, _. split; [reflexivity|].
    destruct (fst (parse_summary (default [] response))); [exact Htitle|].
    discriminate.
  - destruct e; try contradiction.
    eexists _, _, _. split; [reflexivity | exact Htitle].
Qed.

Lemma summarize_news_headline_nonempty_witness :
  let a := sample_item (u "Bitcoin tops 70k") in
  let env := sample_env (Return (Some structured_answer))
               (Raise OtherException) (Return tt) (Return 1%Z)
               (Return None) [] in
  exists headline key_points w',
    summarize_news env [a] empty_world = (Return (headline, key_points), w') /\
    headline <> [].
Proof.
  intros a env.
  apply (summarize_news_headline_nonempty env a [] empty_world).
  - discriminate.
  - exact I.
Defined.

(** C9, as the specification states it, fails: an item with an empty
    title (the Hacker News supplier defaults a missing title to the empty
    string) and a chat completion that raises OpenAIError give an empty
    headline; and an exception of another class is not absorbed at all. *)
Lemma summarize_news_empty_headline :
  let untitled := sample_item [] in
  let failing := sample_env (Raise OpenAIError) (Raise OtherException)
                   (Return tt) (Return 1%Z) (Return None) [] in
  let broken := sample_env (Raise OtherException) (Raise OtherException)
                  (Return tt) (Return 1%Z) (Return None) [] in
  fst (summarize_news failing [untitled] empty_world)
    = Return ([], [u "Stay informed"]) /\
  fst (summarize_news broken [sample_item (u "Bitcoin tops 70k")] empty_world)
    = Raise OtherException.
Proof. split; vm_compute; reflexivity. Qed.

(** C10.  On each of its returning paths (empty input, OpenAIError from
    the chat completion, an answer that parses, an answer that does not)
    summarize_news returns between one and three key points. *)
Theorem summarize_news_key_points_bounds env news_items w :
  news_items = [] \/
  absorbed (chat_completions_create env (messages news_items)) ->
  exists headline key_points w',
    summarize_news env news_items w = (Return (headline, key_points), w') /\
    key_points <> [] /\ length key_points <= 3.
Proof.
  intros Hpath.
  destruct news_items as [|first rest].
  - eexists _, _, _. split; [reflexivity|]. split; [discriminate | simpl; lia].
  - destruct Hpath as [Hnil|Habs]; [discriminate|].
    rewrite summarize_news_cons. cbn zeta.
    destruct (chat_completions_create env (messages (first :: rest)))
      as [response|e].
    + eexists _, _, _. split; [reflexivity|].
      destruct (snd (parse_summary (default [] response))) as [|p ps].
      * split.
        -- apply take_nonempty. unfold titles. simpl. discriminate.
        -- rewrite length_take. lia.
      * split; [apply take_nonempty; discriminate | rewrite length_take; lia].
    + destruct e; try contradiction.
      eexists _, _, _. split; [reflexivity|]. apply later_titles_bounds.
Qed.

Lemma summarize_news_key_points_bounds_witness :
  let items := map sample_item
                 [u "one"; u "two"; u "three"; u "four"; u "five"] in
  let env := sample_env (Return (Some unstructured_answer))
               (Raise OtherException) (Return tt) (Return 1%Z)
               (Return None) [] in
  exists headline key_points w',
    summarize_news env items empty_world
      = (Return (headline, key_points), w') /\
    key_points <> [] /\ length key_points <= 3.
Proof.
  intros items env.
  apply (summarize_news_key_points_bounds env items empty_world).
  right. exact I.
Defined.

(* ===================================================================== *)
(** * post_tweet                                                         *)
(* ===================================================================== *)

Lemma truthy_cons (s : str) : s <> [] -> truthy s = true.
Proof. destruct s; [congruence | reflexivity]. Qed.

(** Case analysis on the answers of the platform and of the image host. *)
Ltac publisher_cases :=
  repeat (cbn -[tweet_result text_with_link];
          match goal with
          | |- context [media_upload ?e ?p] =>
              destruct (media_upload e p) as [?|[]]
          | |- context [create_tweet ?e ?t ?m] =>
              destruct (create_tweet e t m) as [?|[]]
          | |- context [uploadme_post ?e ?p] =>
              destruct (uploadme_post e p) as [[[|? ?]|]|[]]
          | |- context [uploadme_api_key ?e] =>
              destruct (uploadme_api_key e) as [[|? ?]|]
          end).

(** C2.  Whatever the platform and the image host answer, once post_tweet
    has been called with the path of an existing file, that file is gone
    from the file system: after the post with media, after the Forbidden
    fallback with or without a hosted link, and after any other upload
    exception. *)
Theorem post_tweet_deletes_media env text media_path w :
  media_path <> [] ->
  is_Some (fs w !! media_path) ->
  fs (snd (post_tweet env text (Some media_path) w)) !! media_path = None.
Proof.
  intros Hne Hfile.
  pose proof (bool_decide_eq_true_2 _ Hfile) as Hpresent.
  unfold post_tweet, upload_to_uploadme, try_except, bind, attempt, call,
    unlink, path_exists, ret.
  rewrite (truthy_cons _ Hne). cbn beta iota.  rewrite Hpresent.
  publisher_cases.
  all: try rewrite Hpresent.
  all: publisher_cases.
  all: apply lookup_delete_eq.
Qed.

Lemma text_with_link_short_url text image_url :
  length image_url <= 276 ->
  text_with_link text image_url = link_body text image_url ++ [NL] ++ image_url.
Proof.
  intros Hurl. unfold text_with_link, link_body, len, slice_to.
  destruct (length text <=? 279 - length image_url) eqn:Hfit.
  - apply Nat.leb_le in Hfit.
    replace (Z.of_nat (length text) >? 280 - Z.of_nat (length image_url) - 1)%Z
      with false by (symmetry; rewrite Z.gtb_ltb; apply Z.ltb_ge; lia).
    reflexivity.
  - apply Nat.leb_gt in Hfit.
    replace (Z.of_nat (length text) >? 280 - Z.of_nat (length image_url) - 1)%Z
      with true by (symmetry; rewrite Z.gtb_ltb; apply Z.ltb_lt; lia).
    replace (280 - Z.of_nat (length image_url) - 1 - 3 <? 0)%Z
      with false by (symmetry; apply Z.ltb_ge; lia).
    replace (Z.to_nat (280 - Z.of_nat (length image_url) - 1 - 3))
      with (279 - length image_url - 3) by lia.
    reflexivity.
Qed.

Lemma link_body_length text image_url :
  length image_url <= 276 ->
  length (link_body text image_url) <= 279 - length image_url /\
  (279 - length image_url < length text ->
   length (link_body text image_url) = 279 - length image_url).
Proof.
  intros Hurl. unfold link_body.
  destruct (length text <=? 279 - length image_url) eqn:Hfit.
  - apply Nat.leb_le in Hfit. split; lia.
  - apply Nat.leb_gt in Hfit.
    rewrite length_app, length_take. simpl. split; lia.
Qed.

(** C6, as the code has it.  When the upload of an existing media file is
    refused with Forbidden and the image host answers with a URL of at
    most 276 characters, the last call of post_tweet posts, without
    media, the body, a newline and the URL, where the body is the text
    itself if it has at most 279 - len(url) characters and otherwise its
    first 276 - len(url) characters followed by three dots, then exactly
    279 - len(url) long; the posted text has at most 280 characters, and
    it is the tweetText of the result. *)
Theorem post_tweet_hosted_link env text media_path w image_url :
  media_path <> [] ->
  is_Some (fs w !! media_path) ->
  upload_forbidden env text media_path ->
  truthy_opt (uploadme_api_key env) = true ->
  uploadme_post env media_path = Return (Some image_url) ->
  image_url <> [] ->
  length image_url <= 276 ->
  let body := link_body text image_url in
  let posted := body ++ [NL] ++ image_url in
  last (trace (snd (post_tweet env text (Some media_path) w)))
    = Some (ECreateTweet posted None) /\
  fst (post_tweet env text (Some media_path) w)
    = match create_tweet env posted None with
      | Return tweet_id =>
          Return (tweet_result tweet_id posted (Some image_url))
      | Raise e => Raise e
      end /\
  length body <= 279 - length image_url /\
  (279 - length image_url < length text ->
   body = take (276 - length image_url) text ++ u "..." /\
   length body = 279 - length image_url) /\
  (length text <= 279 - length image_url -> body = text) /\
  length posted <= 280.
Proof.
  intros Hne Hfile Hforbidden Hkey Hhost Hurl Hshort body posted.
  pose proof (bool_decide_eq_true_2 _ Hfile) as Hpresent.
  pose proof (link_body_length text image_url Hshort) as [Hle Heq].
  assert (Hrun :
    post_tweet env text (Some media_path) w
    = match create_tweet env posted None with
      | Return tweet_id =>
          (Return (tweet_result tweet_id posted (Some image_url)),
           {| fs := delete media_path (fs w);
              trace := (snd (post_tweet env text (Some media_path) w)).(trace) |})
      | Raise e =>
          (Raise e,
           {| fs := delete media_path (fs w);
              trace := (snd (post_tweet env text (Some media_path) w)).(trace) |})
      end /\
    last (trace (snd (post_tweet env text (Some media_path) w)))
      = Some (ECreateTweet posted None)).
  { unfold post_tweet, upload_to_uploadme, try_except, bind, attempt, call,
      unlink, path_exists, ret.
    rewrite (truthy_cons _ Hne). cbn beta iota. rewrite Hpresent.
    destruct Hforbidden as [Hup | (media & Hup & Htweet)].
    - rewrite Hup. cbn -[tweet_result text_with_link].
      rewrite Hkey, Hpresent, Hhost. cbn -[tweet_result text_with_link].
      rewrite (truthy_cons _ Hurl).
      rewrite (text_with_link_short_url _ _ Hshort). fold body. fold posted.
      destruct (create_tweet env posted None);
        cbn -[tweet_result]; (split; [reflexivity | apply last_snoc]).
    - rewrite Hup, Htweet. cbn -[tweet_result text_with_link].
      rewrite Hkey, Hpresent, Hhost. cbn -[tweet_result text_with_link].
      rewrite (truthy_cons _ Hurl).
      rewrite (text_with_link_short_url _ _ Hshort). fold body. fold posted.
      destruct (create_tweet env posted None);
        cbn -[tweet_result]; (split; [reflexivity | apply last_snoc]). }
  destruct Hrun as [Hrun Hlast].
  split; [exact Hlast|].
  split; [rewrite Hrun; now destruct (create_tweet env posted None)|].
  split; [exact Hle|].
  split.
  { intros Hlong. split; [|now apply Heq].
    subst body. unfold link_body.
    replace (length text <=? 279 - length image_url) with false
      by (symmetry; apply Nat.leb_gt; lia).
    do 2 f_equal. lia. }
  split.
  { intros Hfit. subst body. unfold link_body.
    now replace (length text <=? 279 - length image_url) with true
      by (symmetry; apply Nat.leb_le; lia). }
  subst posted body. rewrite !length_app. simpl. lia.
Qed.

Lemma post_tweet_deletes_media_witness :
  is_Some (fs world_with_media !! media_file) /\
  fs (snd (post_tweet (forbidden_env hosted_url) (u "Markets at noon")
             (Some media_file) world_with_media)) !! media_file = None.
Proof.
  assert (Hfile : is_Some (fs world_with_media !! media_file))
    by (vm_compute; eexists; reflexivity).
  split; [exact Hfile|].
  apply post_tweet_deletes_media; [discriminate | exact Hfile].
Defined.

Lemma post_tweet_hosted_link_witness :
  let text := repeat 84%N 270 in
  let posted := take 236 text ++ u "..." ++ [NL] ++ hosted_url in
  length hosted_url = 40 /\
  last (trace (snd (post_tweet (forbidden_env hosted_url) text
                      (Some media_file) world_with_media)))
    = Some (ECreateTweet posted None) /\
  length (link_body text hosted_url) = 239 /\
  length posted <= 280.
Proof.
  intros text posted.
  assert (Hfile : is_Some (fs world_with_media !! media_file))
    by (vm_compute; eexists; reflexivity).
  assert (Hshort : length hosted_url <= 276)
    by (apply Nat.leb_le; vm_compute; reflexivity).
  assert (Hlong : 279 - length hosted_url < length text)
    by (apply Nat.ltb_lt; vm_compute; reflexivity).
  destruct (post_tweet_hosted_link (forbidden_env hosted_url) text media_file
              world_with_media hosted_url)
    as (Hlast & _ & _ & Htrunc & _ & Hlen);
    [discriminate | exact Hfile | left; reflexivity | reflexivity
    | reflexivity | discriminate | exact Hshort |].
  destruct (Htrunc Hlong) as [Hbody Hexact].
  split; [reflexivity|].
  split; [rewrite Hlast, Hbody; vm_compute; reflexivity|].
  split; [rewrite Hexact; reflexivity|].
  apply Nat.leb_le. vm_compute. reflexivity.
Defined.

(** C6, as the specification states it, fails for a long link: with a
    hosted URL of 277 characters and a text of ten, the slice bound is
    negative, one character is cut, and 290 characters are posted. *)
Lemma post_tweet_oversized_link :
  let text := u "0123456789" in
  let posted := u "012345678..." ++ [NL] ++ oversized_url in
  length oversized_url = 277 /\
  last (trace (snd (post_tweet (forbidden_env oversized_url) text
                      (Some media_file) world_with_media)))
    = Some (ECreateTweet posted None) /\
  length posted = 290 /\
  ~ length posted <= 280.
Proof.
  intros text posted.
  assert (Hlen : length posted = 290) by (vm_compute; reflexivity).
  split; [vm_compute; reflexivity|].
  split; [vm_compute; reflexivity|].
  split; [exact Hlen|]. rewrite Hlen. lia.
Qed.

(* ===================================================================== *)
(** * Which computations call the publisher                              *)
(* ===================================================================== *)

Lemma extends_quietly_refl w : extends_quietly w w.
Proof. exists []. split; [now rewrite app_nil_r | constructor]. Qed.

Lemma extends_quietly_trans w1 w2 w3 :
  extends_quietly w1 w2 -> extends_quietly w2 w3 -> extends_quietly w1 w3.
Proof.
  intros (e1 & H1 & F1) (e2 & H2 & F2). exists (e1 ++ e2). split.
  - now rewrite H2, H1, app_assoc.
  - now apply Forall_app.
Qed.

Section Quiet.
Context {A B : Type}.

Lemma quiet_ret (a : A) : quiet (ret a).
Proof. intros w. apply extends_quietly_refl. Qed.

Lemma quiet_raise e : quiet (@raise A e).
Proof. intros w. apply extends_quietly_refl. Qed.

Lemma quiet_bind (m : M A) (k : A -> M B) :
  quiet m -> (forall a, quiet (k a)) -> quiet (bind m k).
Proof.
  intros Hm Hk w. unfold bind. specialize (Hm w).
  destruct (m w) as [[a|e] w1]; [|exact Hm].
  eapply extends_quietly_trans; [exact Hm | apply Hk].
Qed.

Lemma quiet_attempt (m : M A) : quiet m -> quiet (attempt m).
Proof.
  intros Hm w. unfold attempt. specialize (Hm w).
  now destruct (m w).
Qed.

Lemma quiet_call ev (answer : outcome A) :
  is_publisher_call ev = false -> quiet (call ev answer).
Proof.
  intros Hev w. exists [ev]. split; [reflexivity|]. now constructor.
Qed.
End Quiet.

Lemma quiet_try_except {A} (body : M A) handler :
  quiet body -> (forall e, quiet (handler e)) -> quiet (try_except body handler).
Proof.
  intros Hb Hh. apply quiet_bind; [now apply quiet_attempt|].
  intros [a|e]; [apply quiet_ret | apply Hh].
Qed.

Lemma quiet_try_finally {A} (body : M A) cleanup :
  quiet body -> quiet cleanup -> quiet (try_finally body cleanup).
Proof.
  intros Hb Hc. apply quiet_bind; [now apply quiet_attempt|].
  intros r. apply quiet_bind; [exact Hc|].
  intros _. destruct r; [apply quiet_ret | apply quiet_raise].
Qed.

Lemma quiet_path_exists p : quiet (path_exists p).
Proof. intros w. apply extends_quietly_refl. Qed.
Lemma quiet_st_size p : quiet (st_size p).
Proof. intros w. apply extends_quietly_refl. Qed.
Lemma quiet_unlink p : quiet (unlink p).
Proof. intros w. exists []. split; [symmetry; apply app_nil_r | constructor]. Qed.
Lemma quiet_write_bytes p data : quiet (write_bytes p data).
Proof. intros w. exists []. split; [symmetry; apply app_nil_r | constructor]. Qed.
Lemma quiet_temp_dir_mkdir env : quiet (temp_dir_mkdir env).
Proof. intros w. apply extends_quietly_refl. Qed.

Create HintDb quiet.
#[local] Hint Resolve quiet_ret quiet_raise quiet_attempt quiet_path_exists
  quiet_st_size quiet_unlink quiet_write_bytes quiet_temp_dir_mkdir : quiet.
#[local] Hint Extern 1 (quiet (call _ _)) =>
  (apply quiet_call; reflexivity) : quiet.

(** Walk through a computation: binds, handlers and the branches of the
    conditionals it is made of. *)
Ltac quiet_step :=
  match goal with
  | |- quiet (bind _ _) => apply quiet_bind; [|intros ?]
  | |- quiet (try_except _ _) => apply quiet_try_except; [|intros ?]
  | |- quiet (try_finally _ _) => apply quiet_try_finally
  | |- quiet (attempt _) => apply quiet_attempt
  | |- quiet (if ?b then _ else _) => destruct b
  | |- quiet (match ?x with _ => _ end) => destruct x
  | |- quiet (let '(_, _) := ?x in _) => destruct x
  | |- quiet _ => solve [auto with quiet]
  end.
Ltac quiet_walk := repeat quiet_step.

Lemma quiet_summarize_news env news_items : quiet (summarize_news env news_items).
Proof. unfold summarize_news. quiet_walk. Qed.

Lemma quiet_overlay_with env headline key_points fonts :
  quiet (overlay_with env headline key_points fonts).
Proof.
  induction fonts as [|font rest IH]; cbn [overlay_with]; quiet_walk.
Qed.

Lemma quiet_generate_ai_image env headline key_points :
  quiet (generate_ai_image env headline key_points).
Proof.
  unfold generate_ai_image.
  apply quiet_bind; [apply quiet_temp_dir_mkdir|].
  intros _. apply quiet_overlay_with.
Qed.

Lemma quiet_download_chart_image env symbol :
  quiet (_download_chart_image env symbol).
Proof. unfold _download_chart_image. quiet_walk. Qed.

Lemma quiet_first_visible env selectors : quiet (first_visible env selectors).
Proof.
  induction selectors as [|sel rest IH]; cbn [first_visible]; quiet_walk.
Qed.

Lemma quiet_take_shot ev answer path :
  is_publisher_call ev = false -> quiet (take_shot ev answer path).
Proof. intros Hev. unfold take_shot. apply quiet_bind; [now apply quiet_call|]. intros [png|]; auto with quiet. Qed.

#[local] Hint Resolve quiet_first_visible quiet_generate_ai_image
  quiet_download_chart_image quiet_summarize_news : quiet.
#[local] Hint Extern 1 (quiet (take_shot _ _ _)) =>
  (apply quiet_take_shot; reflexivity) : quiet.

Lemma quiet_capture_page env url selector width height :
  quiet (capture_page env url selector width height).
Proof. unfold capture_page. quiet_walk. Qed.

Lemma quiet_capture_screenshot env url selector width height :
  quiet (_capture_screenshot env url selector width height).
Proof.
  unfold _capture_screenshot. quiet_walk. apply quiet_capture_page.
Qed.

#[local] Hint Resolve quiet_capture_screenshot : quiet.

Lemma quiet_generate_screenshot env news_items target :
  quiet (generate_screenshot env news_items target).
Proof. unfold generate_screenshot. cbn zeta. quiet_walk. Qed.

#[local] Hint Resolve quiet_generate_screenshot : quiet.

Lemma quiet_prepare_media env opts news_items headline key_points :
  quiet (prepare_media env opts news_items headline key_points).
Proof. unfold prepare_media. cbn zeta. quiet_walk. Qed.

Lemma quiet_gather_news env opts : quiet (gather_news env opts).
Proof. unfold gather_news, fetch_crypto_news, fetch_world_news. quiet_walk. Qed.

(* ===================================================================== *)
(** * run                                                                *)
(* ===================================================================== *)

Lemma bind_return {A B} (m : M A) (k : A -> M B) w a w1 :
  m w = (Return a, w1) -> bind m k w = k a w1.
Proof. intros H. unfold bind. now rewrite H. Qed.

Lemma gather_news_run env opts w :
  gather_news env opts w
    = (Return (gathered env opts),
       {| fs := fs w; trace := trace w ++ fetch_calls opts |}).
Proof.
  unfold gather_news, gathered, fetch_calls, fetch_crypto_news,
    fetch_world_news, bind, call, ret.
  destruct w as [files events].
  destruct (crypto_news_enabled opts), (world_news_enabled opts); cbn;
    rewrite <- ?app_assoc, ?app_nil_r; reflexivity.
Qed.

(** C5.  When the enabled categories yield no item, run returns exactly
    the dictionary of success False and error "No news items found"; it
    has made the fetch calls of the enabled categories and no other
    outside call (no chat completion, no media acquisition, no publisher
    call), has written or removed no file, and the result carries no
    tweet text and no format. *)
Theorem run_no_news env opts w :
  gathered env opts = [] ->
  run env opts w
    = (Return (dict [ kv "success" (PBool false);
                      kv "error" (PStr (u "No news items found")) ]),
       {| fs := fs w; trace := trace w ++ fetch_calls opts |}).
Proof.
  intros Hnone. unfold run.
  rewrite (bind_return _ _ _ _ _ (gather_news_run env opts w)).
  rewrite Hnone. reflexivity.
Qed.

Lemma run_no_news_witness :
  let env := sample_env (Return (Some structured_answer))
               (Return (repeat 0%N 2048)) (Return tt) (Return 7%Z)
               (Return None) [] in
  let opts := sample_options false (u "ai") in
  run env opts empty_world
    = (Return (dict [ kv "success" (PBool false);
                      kv "error" (PStr (u "No news items found")) ]),
       {| fs := ∅; trace := [EFetchCrypto; EFetchWorld] |}).
Proof.
  intros env opts.
  exact (run_no_news env opts empty_world eq_refl).
Defined.

Lemma quiet_run_dry env opts : dry_run opts = true -> quiet (run env opts).
Proof.
  intros Hdry. unfold run. rewrite Hdry.
  apply quiet_bind; [apply quiet_gather_news|]. intros [|item rest].
  - apply quiet_ret.
  - apply quiet_bind; [apply quiet_summarize_news|]. intros [headline key_points].
    destruct (build_tweet_text headline key_points) as [tweet_text format_used].
    apply quiet_bind; [apply quiet_prepare_media|]. intros media_path.
    quiet_walk.
Qed.

(* ===================================================================== *)
(** * _capture_screenshot and generate_screenshot                        *)
(* ===================================================================== *)

Lemma ensures_bind {A B} (m : M A) (k : A -> M B) Q :
  (forall a, ensures (k a) Q) -> ensures (bind m k) Q.
Proof.
  intros Hk w b w' H. unfold bind in H.
  destruct (m w) as [[a|e] w1]; [eapply Hk; eassumption | discriminate].
Qed.

(** The path capture_page returns is the one it found on disk. *)
Lemma capture_page_present env url selector width height :
  ensures (capture_page env url selector width height) path_present.
Proof.
  unfold capture_page.
  do 8 (apply ensures_bind; intros ?).
  intros w r w' H p ->.
  unfold bind, path_exists, st_size, ret in H.
  destruct (bool_decide _) eqn:Hpresent; [|discriminate].
  destruct (_ <? 1000)%Z; [discriminate|].
  injection H as <- <-. now apply bool_decide_eq_true in Hpresent.
Qed.

(** With a browser that launches and closes, _capture_screenshot returns,
    and what it returns is None or a path that exists. *)
Lemma capture_screenshot_returns env url selector width height w :
  (forall exe, browser_launch env exe = Return tt) ->
  browser_close env = Return tt ->
  exists r w',
    _capture_screenshot env url selector width height w = (Return r, w') /\
    path_present r w'.
Proof.
  intros Hlaunch Hclose. unfold _capture_screenshot.
  destruct (launch_imported env); cbn [negb];
    [|eexists _, _; split; [reflexivity | intros p [=]]].
  destruct (chromium_executable env) as [exe|];
    [|eexists _, _; split; [reflexivity | intros p [=]]].
  destruct (truthy exe); cbn [negb];
    [|eexists _, _; split; [reflexivity | intros p [=]]].
  unfold try_finally, try_except, attempt, call.
  rewrite Hlaunch, Hclose. unfold bind at 1 2 4. cbn [fs trace].
  pose proof (capture_page_present env url selector width height
                {| fs := fs w; trace := trace w ++ [ELaunch exe] |}) as Hpage.
  unfold bind.
  destruct (capture_page env url selector width height _) as [[r|e] w1].
  - eexists _, _. split; [reflexivity|].
    intros p ->. exact (Hpage _ _ eq_refl p eq_refl).
  - eexists _, _. split; [reflexivity | intros p [=]].
Qed.

(** The chart download absorbs every failure, and the path it returns
    has just been written. *)
Lemma download_chart_image_returns env symbol w :
  exists r w',
    _download_chart_image env symbol w = (Return r, w') /\
    path_present r w'.
Proof.
  unfold _download_chart_image, try_except, bind, attempt, call, write_bytes,
    temp_dir_mkdir, ret.
  destruct (requests_get env _) as [[status_code content]|e].
  - destruct ((status_code =? 200)%Z && truthy content
              && (1000 <? len content)%Z).
    + destruct (temp_dir_created env) as [[]|e].
      * eexists _, _. split; [reflexivity|].
        intros p [=<-]. cbn [fs]. rewrite lookup_insert_eq. now eexists.
      * eexists _, _. split; [reflexivity | intros p [=]].
    + eexists _, _. split; [reflexivity | intros p [=]].
  - eexists _, _. split; [reflexivity | intros p [=]].
Qed.


(** An exception of the browser launch leaves _capture_screenshot: the
    launch stands before the try statement. *)
Lemma capture_screenshot_launch_raises env url selector width height w exe e :
  launch_imported env = true ->
  chromium_executable env = Some exe ->
  exe <> [] ->
  browser_launch env exe = Raise e ->
  _capture_screenshot env url selector width height w
    = (Raise e, {| fs := fs w; trace := trace w ++ [ELaunch exe] |}).
Proof.
  intros Himp Hexe Hne Hlaunch. unfold _capture_screenshot.
  rewrite Himp, Hexe, (truthy_cons _ Hne). cbn [negb].
  unfold bind, call. now rewrite Hlaunch.
Qed.

(** C3, on the code: a browser launch that raises.  With pyppeteer
    imported and a Chromium executable found, the exception of the launch
    leaves generate_screenshot, and with it run, instead of becoming a
    None result. *)
Theorem generate_screenshot_launch_failure :
  let env := sample_env (Return (Some structured_answer))
               (Raise OtherException) (Raise OtherException) (Return 7%Z)
               (Return None) [sample_item (u "ETH rallies 8%")] in
  generate_screenshot env (crypto_news env) (u "crypto-ticker") empty_world
    = (Raise OtherException,
       {| fs := ∅; trace := [ELaunch (u "/usr/bin/chromium")] |}) /\
  fst (run env (sample_options false (u "screenshot")) empty_world)
    = Raise OtherException.
Proof. split; vm_compute; reflexivity. Qed.

(* ===================================================================== *)
(** * More on post_tweet and upload_to_uploadme                          *)
(* ===================================================================== *)

Lemma media_usable_present p w :
  p <> [] -> is_Some (fs w !! p) -> media_usable (Some p) w = true.
Proof.
  intros Hne Hfile. unfold media_usable.
  now rewrite (truthy_cons _ Hne), (bool_decide_eq_true_2 _ Hfile).
Qed.

(** The first lines of post_tweet, by the test on the media path. *)
Lemma post_tweet_unusable env text media_path w :
  media_usable media_path w = false ->
  post_tweet env text media_path w
    = (match create_tweet env text None with
       | Return tweet_id => Return (tweet_result tweet_id text None)
       | Raise e => Raise e
       end,
       {| fs := fs w; trace := trace w ++ [ECreateTweet text None] |}).
Proof.
  unfold media_usable, post_tweet, bind, path_exists, call, ret.
  destruct media_path as [p|]; [destruct (truthy p); cbn [andb]|]; intros H.
  - rewrite H. now destruct (create_tweet env text None).
  - now destruct (create_tweet env text None).
  - now destruct (create_tweet env text None).
Qed.

(** Close a branch of post_tweet by the answer to its last post. *)
Ltac finish_post :=
  solve [ repeat match goal with
                 | |- context [create_tweet ?e ?t None] =>
                     destruct (create_tweet e t None)
                 end; reflexivity ].

(** post_tweet with a usable media file, outcome by outcome. *)
Lemma post_tweet_usable env text p w :
  media_usable (Some p) w = true ->
  post_tweet env text (Some p) w
    = match media_upload env p with
      | Return media =>
          let w2 := logged (ECreateTweet text (Some [media]))
                      (logged (EMediaUpload p) w) in
          match create_tweet env text (Some [media]) with
          | Return tweet_id =>
              (Return (tweet_result tweet_id text None), without_file p w2)
          | Raise e => post_after_failure env text p e w2
          end
      | Raise e => post_after_failure env text p e (logged (EMediaUpload p) w)
      end.
Proof.
  unfold media_usable. intros Husable.
  apply andb_true_iff in Husable as [Hp Hpresent].
  unfold post_tweet, upload_to_uploadme, try_except, bind, attempt, call,
    unlink, path_exists, ret, post_after_failure, post_finish, hosted_link,
    logged, without_file.
  rewrite Hp. cbn beta iota. rewrite Hpresent.
  destruct (media_upload env p) as [media|e1];
    [destruct (create_tweet env text (Some [media])) as [tweet_id|e1]|].
  - reflexivity.
  - destruct e1; cbn -[tweet_result text_with_link]; try rewrite Hpresent;
      try finish_post.
    destruct (truthy_opt (uploadme_api_key env));
      cbn -[tweet_result text_with_link]; [|finish_post].
    destruct (uploadme_post env p) as [link|e2];
      cbn -[tweet_result text_with_link]; [|finish_post].
    destruct (truthy_opt link); finish_post.
  - destruct e1; cbn -[tweet_result text_with_link]; try rewrite Hpresent;
      try finish_post.
    destruct (truthy_opt (uploadme_api_key env));
      cbn -[tweet_result text_with_link]; [|finish_post].
    destruct (uploadme_post env p) as [link|e2];
      cbn -[tweet_result text_with_link]; [|finish_post].
    destruct (truthy_opt link); finish_post.
Qed.

Lemma text_with_link_length text link :
  length link <= 276 -> length (text_with_link text link) <= 280.
Proof.
  intros Hshort. rewrite (text_with_link_short_url _ _ Hshort).
  pose proof (link_body_length text link Hshort) as [Hle _].
  rewrite !length_app. simpl. lia.
Qed.

Lemma hosted_link_answer env p link :
  hosted_link env p = Some link -> uploadme_post env p = Return (Some link).
Proof.
  unfold hosted_link. destruct (truthy_opt _); [|discriminate].
  destruct (uploadme_post env p) as [r|e]; [now intros ->|discriminate].
Qed.

(** X1.  Without a usable media file (no path, an empty path, or a path at
    which there is no file) post_tweet makes one outside call, the post
    of the unchanged text without media, and touches no file; its
    outcome is that of this post. *)
Theorem post_tweet_without_media env text media_path w :
  media_path = None \/ media_path = Some [] \/
  (exists p, media_path = Some p /\ fs w !! p = None) ->
  fs (snd (post_tweet env text media_path w)) = fs w /\
  trace (snd (post_tweet env text media_path w))
    = trace w ++ [ECreateTweet text None] /\
  fst (post_tweet env text media_path w)
    = match create_tweet env text None with
      | Return tweet_id => Return (tweet_result tweet_id text None)
      | Raise e => Raise e
      end.
Proof.
  intros Hcase.
  assert (Hunusable : media_usable media_path w = false).
  { destruct Hcase as [-> | [-> | (p & -> & Hnone)]]; try reflexivity.
    unfold media_usable. rewrite Hnone.
    rewrite bool_decide_eq_false_2 by (intros [x Hx]; discriminate).
    apply andb_false_r. }
  rewrite (post_tweet_unusable _ _ _ _ Hunusable). now repeat split.
Qed.

Lemma post_tweet_without_media_witness :
  let env := forbidden_env hosted_url in
  let stale := u "/tmp/twitter_bot/gone.png" in
  trace (snd (post_tweet env (u "Markets at noon") (Some stale) empty_world))
    = [ECreateTweet (u "Markets at noon") None].
Proof.
  intros env stale.
  refine (proj1 (proj2 (post_tweet_without_media env (u "Markets at noon")
                          (Some stale) empty_world _))).
  right. right. exists stale. split; reflexivity.
Defined.

(** When the media upload and the post with media both succeed,
    post_tweet makes exactly these two outside calls (no second, text-only
    post), removes the file, and reports the unchanged text with the
    identifier of that post and no image URL. *)
Theorem post_tweet_with_media env text p w media tweet_id :
  p <> [] ->
  is_Some (fs w !! p) ->
  media_upload env p = Return media ->
  create_tweet env text (Some [media]) = Return tweet_id ->
  post_tweet env text (Some p) w
    = (Return (dict [ kv "success" (PBool true);
                      kv "tweetId" (of_optional tweet_id);
                      kv "tweetText" (PStr text);
                      kv "imageUrl" PNone ]),
       {| fs := delete p (fs w);
          trace := trace w ++ [EMediaUpload p; ECreateTweet text (Some [media])] |}).
Proof.
  intros Hne Hfile Hup Htweet.
  rewrite (post_tweet_usable _ _ _ _ (media_usable_present _ _ Hne Hfile)).
  rewrite Hup, Htweet. unfold without_file, logged. cbn [fs trace].
  now rewrite <- app_assoc.
Qed.

Lemma post_tweet_with_media_witness :
  let env := sample_env (Return (Some structured_answer))
               (Return (repeat 0%N 2048)) (Return tt) (Return 7%Z)
               (Return None) [] in
  trace (snd (post_tweet env (u "Markets at noon") (Some media_file)
                world_with_media))
    = [EMediaUpload media_file; ECreateTweet (u "Markets at noon") (Some [7%Z])].
Proof.
  intros env.
  rewrite (post_tweet_with_media env (u "Markets at noon") media_file
             world_with_media 7%Z (Some (u "1790000000000000001")));
    [reflexivity | discriminate | vm_compute; eexists; reflexivity
    | reflexivity | reflexivity].
Defined.

(** X2.  When the upload is refused with Forbidden and the image host gives
    no usable link (no API key, a failed request, no URL or an empty URL
    in the answer), post_tweet posts the original text unchanged, and the
    image URL it reports is what the host gave. *)
Theorem post_tweet_forbidden_without_link env text p w :
  p <> [] ->
  is_Some (fs w !! p) ->
  upload_forbidden env text p ->
  truthy_opt (hosted_link env p) = false ->
  last (trace (snd (post_tweet env text (Some p) w)))
    = Some (ECreateTweet text None) /\
  fst (post_tweet env text (Some p) w)
    = match create_tweet env text None with
      | Return tweet_id =>
          Return (tweet_result tweet_id text (hosted_link env p))
      | Raise e => Raise e
      end.
Proof.
  intros Hne Hfile Hforbidden Hnolink.
  rewrite (post_tweet_usable _ _ _ _ (media_usable_present _ _ Hne Hfile)).
  destruct Hforbidden as [Hup | (media & Hup & Htweet)];
    rewrite Hup; [|cbn zeta; rewrite Htweet];
    unfold post_after_failure, post_finish; cbn zeta; rewrite Hnolink;
    (split; [apply last_snoc | reflexivity]).
Qed.

Lemma post_tweet_forbidden_without_link_witness :
  let env := sample_env (Return (Some structured_answer))
               (Return (repeat 0%N 2048)) (Return tt) (Raise Forbidden)
               (Raise OtherException) [] in
  last (trace (snd (post_tweet env (u "Markets at noon") (Some media_file)
                      world_with_media)))
    = Some (ECreateTweet (u "Markets at noon") None).
Proof.
  intros env.
  refine (proj1 (post_tweet_forbidden_without_link env (u "Markets at noon")
                   media_file world_with_media _ _ _ _));
    [discriminate | vm_compute; eexists; reflexivity | left; reflexivity
    | reflexivity].
Defined.

(** X3.  When the upload or the post with media fails with an exception other
    than Forbidden, the image host is not asked: post_tweet removes the
    file and posts the original text, reporting no image URL. *)
Theorem post_tweet_other_failure env text p w :
  p <> [] ->
  is_Some (fs w !! p) ->
  upload_broken env text p ->
  exists evs,
    trace (snd (post_tweet env text (Some p) w))
      = trace w ++ evs ++ [ECreateTweet text None] /\
    Forall (fun ev => ev <> EUploadMePost p) evs /\
    fs (snd (post_tweet env text (Some p) w)) = delete p (fs w) /\
    fst (post_tweet env text (Some p) w)
      = match create_tweet env text None with
        | Return tweet_id => Return (tweet_result tweet_id text None)
        | Raise e => Raise e
        end.
Proof.
  intros Hne Hfile Hbroken.
  rewrite (post_tweet_usable _ _ _ _ (media_usable_present _ _ Hne Hfile)).
  destruct Hbroken as [(e & Hup & He) | (media & e & Hup & Htweet & He)].
  - rewrite Hup. exists [EMediaUpload p].
    destruct e; try congruence; cbn;
      (repeat split; [now rewrite <- app_assoc | repeat constructor; discriminate]).
  - rewrite Hup. cbn zeta. rewrite Htweet.
    exists [EMediaUpload p; ECreateTweet text (Some [media])].
    destruct e; try congruence; cbn;
      (repeat split; [now rewrite <- !app_assoc | repeat constructor; discriminate]).
Qed.

Lemma post_tweet_other_failure_witness :
  let env := sample_env (Return (Some structured_answer))
               (Return (repeat 0%N 2048)) (Return tt) (Raise OtherException)
               (Return (Some hosted_url)) [] in
  let text := u "Markets at noon" in
  exists evs,
    trace (snd (post_tweet env text (Some media_file) world_with_media))
      = trace world_with_media ++ evs ++ [ECreateTweet text None] /\
    Forall (fun ev => ev <> EUploadMePost media_file) evs /\
    fs (snd (post_tweet env text (Some media_file) world_with_media))
      = delete media_file (fs world_with_media) /\
    fst (post_tweet env text (Some media_file) world_with_media)
      = match create_tweet env text None with
        | Return tweet_id => Return (tweet_result tweet_id text None)
        | Raise e => Raise e
        end.
Proof.
  intros env text.
  apply post_tweet_other_failure;
    [discriminate | vm_compute; eexists; reflexivity|].
  left. exists OtherException. split; [reflexivity | discriminate].
Defined.

(** X4.  Whenever post_tweet returns, on any of its paths, it reports success
    and, as tweetText, the text of the last post it sent. *)
Theorem post_tweet_reports_posted_text env text media_path w result w' :
  post_tweet env text media_path w = (Return result, w') ->
  exists posted media_ids,
    last (trace w') = Some (ECreateTweet posted media_ids) /\
    result !! "tweetText" = Some (PStr posted) /\
    result !! "success" = Some (PBool true).
Proof.
  destruct (media_usable media_path w) eqn:Husable.
  - destruct media_path as [p|]; [|discriminate].
    rewrite (post_tweet_usable _ _ _ _ Husable).
    unfold post_after_failure, post_finish.
    destruct (media_upload env p) as [media|e1];
      [cbn zeta; destruct (create_tweet env text (Some [media])) as [tweet_id|e1]|].
    + intros [= <- <-]. eexists _, _.
      split; [apply last_snoc | split; reflexivity].
    + destruct e1; cbn zeta;
        match goal with |- context [create_tweet env ?t None] =>
          destruct (create_tweet env t None) end;
        intros [= <- <-]; eexists _, _;
        (split; [apply last_snoc | split; reflexivity]).
    + destruct e1; cbn zeta;
        match goal with |- context [create_tweet env ?t None] =>
          destruct (create_tweet env t None) end;
        intros [= <- <-]; eexists _, _;
        (split; [apply last_snoc | split; reflexivity]).
  - rewrite (post_tweet_unusable _ _ _ _ Husable).
    destruct (create_tweet env text None); intros [= <- <-].
    eexists _, _. split; [apply last_snoc | split; reflexivity].
Qed.

Lemma post_tweet_reports_posted_text_witness :
  let env := forbidden_env hosted_url in
  exists result w' posted media_ids,
    post_tweet env (u "Markets at noon") (Some media_file) world_with_media
      = (Return result, w') /\
    last (trace w') = Some (ECreateTweet posted media_ids) /\
    result !! "tweetText" = Some (PStr posted).
Proof.
  intros env.
  destruct (post_tweet env (u "Markets at noon") (Some media_file)
              world_with_media) as [[result|e] w'] eqn:Hrun;
    [|vm_compute in Hrun; discriminate Hrun].
  destruct (post_tweet_reports_posted_text _ _ _ _ _ _ Hrun)
    as (posted & media_ids & Hlast & Htext & _).
  now exists result, w', posted, media_ids.
Defined.

(** X5.  An exception leaves post_tweet only from its last, text-only post:
    whatever the media upload, the post with media and the image host
    raise is absorbed. *)
Theorem post_tweet_raises_only_from_text_post env text media_path w e w' :
  post_tweet env text media_path w = (Raise e, w') ->
  exists final_text,
    create_tweet env final_text None = Raise e /\
    last (trace w') = Some (ECreateTweet final_text None).
Proof.
  destruct (media_usable media_path w) eqn:Husable.
  - destruct media_path as [p|]; [|discriminate].
    rewrite (post_tweet_usable _ _ _ _ Husable).
    unfold post_after_failure, post_finish.
    destruct (media_upload env p) as [media|e1];
      [cbn zeta; destruct (create_tweet env text (Some [media])) as [tweet_id|e1]|].
    + discriminate.
    + destruct e1; cbn zeta;
        match goal with |- context [create_tweet env ?t None] =>
          destruct (create_tweet env t None) eqn:Hpost end;
        intros [= <- <-]; eexists; (split; [exact Hpost | apply last_snoc]).
    + destruct e1; cbn zeta;
        match goal with |- context [create_tweet env ?t None] =>
          destruct (create_tweet env t None) eqn:Hpost end;
        intros [= <- <-]; eexists; (split; [exact Hpost | apply last_snoc]).
  - rewrite (post_tweet_unusable _ _ _ _ Husable).
    destruct (create_tweet env text None) eqn:Hpost; intros [= <- <-].
    eexists. split; [exact Hpost | apply last_snoc].
Qed.

(** X6.  With a text of at most 280 characters and an image host whose links
    have at most 276, every outside call of post_tweet is a publisher call
    (media upload, post, image host) and every text it posts, with or
    without a link, has at most 280 characters. *)
Theorem post_tweet_posts_within_limit env text media_path :
  length text <= 280 ->
  (forall p link,
     uploadme_post env p = Return (Some link) -> length link <= 276) ->
  emits publisher_call_within_limit (post_tweet env text media_path).
Proof.
  intros Htext Hlinks w.
  destruct (media_usable media_path w) eqn:Husable.
  - destruct media_path as [p|]; [|discriminate].
    rewrite (post_tweet_usable _ _ _ _ Husable).
    assert (Hfinal : forall link,
              hosted_link env p = link ->
              length (if truthy_opt link
                      then text_with_link text (default [] link)
                      else text) <= 280).
    { intros [link|] Hlink; cbn [truthy_opt default]; [|exact Htext].
      destruct (truthy link); [|exact Htext].
      apply text_with_link_length, (Hlinks p), hosted_link_answer, Hlink. }
    specialize (Hfinal _ eq_refl).
    unfold post_after_failure, post_finish, logged, without_file.
    destruct (media_upload env p) as [media|e1];
      [cbn zeta; destruct (create_tweet env text (Some [media])) as [tweet_id|e1]|];
      try destruct e1; cbn zeta;
      try destruct (truthy_opt (uploadme_api_key env));
      cbn [snd fs trace]; rewrite <- ?app_assoc;
      (eexists; split; [reflexivity|]); cbn [app];
      repeat (constructor; [cbn; first [exact I | assumption]|]);
      constructor.
  - rewrite (post_tweet_unusable _ _ _ _ Husable). cbn [snd trace].
    eexists. split; [reflexivity|].
    constructor; [exact Htext | constructor].
Qed.

Lemma post_tweet_posts_within_limit_witness :
  emits publisher_call_within_limit
    (post_tweet (forbidden_env hosted_url) (repeat 84%N 270) (Some media_file)).
Proof.
  apply post_tweet_posts_within_limit.
  - apply Nat.leb_le. vm_compute. reflexivity.
  - intros p link [= <-]. apply Nat.leb_le. vm_compute. reflexivity.
Defined.

Lemma post_tweet_raises_only_from_text_post_witness :
  let env := with_create_tweet (forbidden_env hosted_url)
               (fun _ _ => Raise OtherException) in
  exists final_text w',
    post_tweet env (u "Markets at noon") (Some media_file) world_with_media
      = (Raise OtherException, w') /\
    create_tweet env final_text None = Raise OtherException /\
    last (trace w') = Some (ECreateTweet final_text None).
Proof.
  intros env.
  destruct (post_tweet env (u "Markets at noon") (Some media_file)
              world_with_media) as [[result|e] w'] eqn:Hrun;
    [vm_compute in Hrun; discriminate Hrun|].
  assert (He : e = OtherException)
    by (vm_compute in Hrun; now injection Hrun as <- _).
  subst e.
  destruct (post_tweet_raises_only_from_text_post _ _ _ _ _ _ Hrun)
    as (final_text & Hpost & Hlast).
  now exists final_text, w'.
Defined.

(** X7.  upload_to_uploadme never raises and touches no file; it asks the
    image host only when an API key is configured and the file exists,
    and then answers with the URL of the host, or None when the request
    fails. *)
Theorem upload_to_uploadme_absorbs env media_path w :
  exists link,
    fst (upload_to_uploadme env media_path w) = Return link /\
    fs (snd (upload_to_uploadme env media_path w)) = fs w /\
    (if truthy_opt (uploadme_api_key env)
        && bool_decide (is_Some (fs w !! media_path))
     then trace (snd (upload_to_uploadme env media_path w))
            = trace w ++ [EUploadMePost media_path] /\
          link = match uploadme_post env media_path with
                 | Return answer => answer
                 | Raise _ => None
                 end
     else snd (upload_to_uploadme env media_path w) = w /\ link = None).
Proof.
  unfold upload_to_uploadme, try_except, bind, attempt, call, path_exists, ret.
  destruct (truthy_opt (uploadme_api_key env)); cbn [negb orb andb].
  - destruct (bool_decide (is_Some (fs w !! media_path))); cbn [negb].
    + destruct (uploadme_post env media_path) as [answer|e];
        eexists; repeat split; reflexivity.
    + eexists. repeat split; reflexivity.
  - eexists. repeat split; reflexivity.
Qed.

(* ===================================================================== *)
(** * More on strip and build_tweet_text                                 *)
(* ===================================================================== *)

Lemma head_rev {A} (l : list A) : head (rev l) = last l.
Proof.
  induction l as [|x l IH]; [reflexivity|].
  simpl rev. destruct l as [|y l]; [reflexivity|].
  rewrite last_cons_cons, <- IH. simpl rev.
  now destruct (rev l ++ [y]) eqn:E; [destruct (rev l); discriminate|].
Qed.

Lemma last_rev {A} (l : list A) : last (rev l) = head l.
Proof. now rewrite <- head_rev, rev_involutive. Qed.

Lemma drop_while_head {A} (f : A -> bool) l c :
  head (drop_while f l) = Some c -> f c = false.
Proof.
  induction l as [|x l IH]; [discriminate|]. simpl.
  destruct (f x) eqn:Hx; [exact IH|]. now intros [= <-].
Qed.

Lemma drop_while_id {A} (f : A -> bool) l :
  (forall c, head l = Some c -> f c = false) -> drop_while f l = l.
Proof.
  destruct l as [|x l]; [reflexivity|]. intros H. simpl.
  now rewrite (H x eq_refl).
Qed.

Lemma drop_while_suffix {A} (f : A -> bool) l :
  exists skipped, l = skipped ++ drop_while f l.
Proof.
  induction l as [|x l [skipped IH]]; [now exists []|]. simpl.
  destruct (f x); [|now exists []].
  exists (x :: skipped). simpl. now f_equal.
Qed.

Lemma rstrip_with_prefix f s :
  exists trimmed, s = rstrip_with f s ++ trimmed.
Proof.
  unfold rstrip_with.
  destruct (drop_while_suffix f (rev s)) as [skipped H].
  exists (rev skipped).
  rewrite <- rev_app_distr, <- H. symmetry. apply rev_involutive.
Qed.

Lemma rstrip_with_last f s c :
  last (rstrip_with f s) = Some c -> f c = false.
Proof. unfold rstrip_with. rewrite last_rev. apply drop_while_head. Qed.

Lemma rstrip_with_head f s c :
  head (rstrip_with f s) = Some c -> head s = Some c.
Proof.
  destruct (rstrip_with_prefix f s) as [trimmed H]. intros Hc.
  rewrite H. now destruct (rstrip_with f s).
Qed.

Lemma rstrip_with_id f s :
  (forall c, last s = Some c -> f c = false) -> rstrip_with f s = s.
Proof.
  intros H. unfold rstrip_with. rewrite drop_while_id.
  - apply rev_involutive.
  - intros c. rewrite head_rev. apply H.
Qed.

Lemma strip_with_head f s c :
  head (strip_with f s) = Some c -> f c = false.
Proof.
  unfold strip_with, lstrip_with. intros H.
  apply rstrip_with_head in H. now apply drop_while_head in H.
Qed.

Lemma strip_with_last f s c :
  last (strip_with f s) = Some c -> f c = false.
Proof. apply rstrip_with_last. Qed.

Lemma strip_with_idemp f s : strip_with f (strip_with f s) = strip_with f s.
Proof.
  unfold strip_with at 1. unfold lstrip_with.
  rewrite drop_while_id by apply strip_with_head.
  apply rstrip_with_id, strip_with_last.
Qed.

Lemma last_app_nonempty {A} (a b : list A) : b <> [] -> last (a ++ b) = last b.
Proof.
  intros Hb. destruct (exists_last Hb) as (b' & x & ->).
  now rewrite app_assoc, !last_snoc.
Qed.

(** Marker and stripped headline: nothing to trim unless the headline is
    blank. *)
Lemma rstrip_marked_headline headline :
  strip headline <> [] ->
  rstrip_with isspace (HEADLINE_MARK ++ strip headline)
    = HEADLINE_MARK ++ strip headline.
Proof.
  intros Hne. apply rstrip_with_id. intros c.
  rewrite (last_app_nonempty _ _ Hne). apply strip_with_last.
Qed.

(** X8.  The text build_tweet_text returns neither starts nor ends with white
    space, in any tier: stripping it again changes nothing. *)
Theorem build_tweet_text_trimmed headline key_points :
  let text := fst (build_tweet_text headline key_points) in
  strip text = text /\
  (forall c, head text = Some c -> isspace c = false) /\
  (forall c, last text = Some c -> isspace c = false).
Proof.
  unfold build_tweet_text.
  destruct (length (full_format _ _) <=? 260);
    [|destruct (length (abbreviated _ _) <=? 280)]; cbn [fst];
    (split; [apply strip_with_idemp|];
     split; intros c; [apply strip_with_head | apply strip_with_last]).
Qed.

(** build_tweet_text looks only at the stripped headline and at the first
    three key points: a fourth and later key point, and white space
    around the headline, never change the text or the tier. *)
Theorem build_tweet_text_reads_three_points headline headline' key_points
    key_points' :
  strip headline = strip headline' ->
  take 3 key_points = take 3 key_points' ->
  build_tweet_text headline key_points = build_tweet_text headline' key_points'.
Proof. intros Hh Hk. unfold build_tweet_text. now rewrite Hh, Hk. Qed.

Lemma build_tweet_text_reads_three_points_witness :
  build_tweet_text (u "  ETH rallies ") [u "a"; u "b"; u "c"; u "d"; u "e"]
    = build_tweet_text (u "ETH rallies") [u "a"; u "b"; u "c"].
Proof. apply build_tweet_text_reads_three_points; reflexivity. Defined.

(** X9.  In the minimal tier the text is the headline marker followed by the
    stripped headline, and nothing of the key points, whenever the
    headline is not blank. *)
Theorem build_tweet_text_minimal_text headline key_points :
  snd (build_tweet_text headline key_points) = u "minimal" ->
  strip headline <> [] ->
  fst (build_tweet_text headline key_points) = HEADLINE_MARK ++ strip headline.
Proof.
  unfold build_tweet_text.
  destruct (length (full_format _ _) <=? 260); [discriminate|].
  destruct (length (abbreviated _ _) <=? 280); [discriminate|].
  intros _ Hne. cbn [fst].
  rewrite strip_minimal. now apply rstrip_marked_headline.
Qed.

Lemma build_tweet_text_minimal_text_witness :
  let headline := repeat 88%N 200 in
  let key_points := [repeat 97%N 90; repeat 98%N 90; repeat 99%N 90] in
  fst (build_tweet_text headline key_points) = HEADLINE_MARK ++ strip headline.
Proof.
  intros headline key_points. apply build_tweet_text_minimal_text.
  - vm_compute. reflexivity.
  - vm_compute. discriminate.
Defined.

(** X10.  The returned text is longer than 280 characters in exactly one
    situation: the minimal tier was chosen and the stripped headline has
    more than 275 characters. *)
Theorem build_tweet_text_over_limit_iff headline key_points :
  280 < length (fst (build_tweet_text headline key_points)) <->
  snd (build_tweet_text headline key_points) = u "minimal" /\
  275 < length (strip headline).
Proof.
  unfold build_tweet_text.
  destruct (length (full_format _ _) <=? 260) eqn:Hfull.
  - cbn [fst snd]. apply Nat.leb_le in Hfull.
    pose proof (strip_length (full_format (strip headline) (take 3 key_points))).
    split; [lia | intros [[=] _]].
  - destruct (length (abbreviated _ _) <=? 280) eqn:Habbr.
    + cbn [fst snd]. apply Nat.leb_le in Habbr.
      pose proof (strip_length (abbreviated (strip headline) (take 3 key_points))).
      split; [lia | intros [[=] _]].
    + cbn [fst snd]. split.
      * intros Hlong. split; [reflexivity|].
        pose proof (strip_minimal_length (strip headline)). lia.
      * intros [_ Hlong].
        rewrite strip_minimal, rstrip_marked_headline
          by (intros E; rewrite E in Hlong; simpl in Hlong; lia).
        rewrite length_app. change (length HEADLINE_MARK) with 5. lia.
Qed.

Lemma join_cons_length sep (x : list N) rest :
  length x <= length (join sep (x :: rest)).
Proof.
  destruct rest as [|y rest]; cbn [join]; [lia|].
  rewrite length_app. lia.
Qed.

Lemma abbreviated_length headline key_points :
  length (abbreviated headline key_points)
    = 9 + length headline
      + match key_points with
        | p :: _ => 4 + length p
        | [] => 0
        end.
Proof.
  unfold abbreviated. destruct key_points as [|p rest];
    rewrite !length_app; cbn [length HEADLINE_MARK POINT_MARK]; lia.
Qed.

Lemma abbreviated_le_full headline key_points :
  length (abbreviated headline key_points)
    <= length (full_format headline key_points).
Proof.
  unfold abbreviated, full_format. rewrite !length_app.
  destruct key_points as [|p rest]; cbn [map]; [simpl; lia|].
  pose proof (join_cons_length [NL] (POINT_MARK ++ p)
                (map (fun q => POINT_MARK ++ q) rest)).
  lia.
Qed.

(** X11.  The minimal tier is chosen exactly when the stripped headline and the
    first key point (with its four-character marker) have together more
    than 271 characters; the second and third key points play no part in
    that choice. *)
Theorem build_tweet_text_minimal_iff headline key_points :
  snd (build_tweet_text headline key_points) = u "minimal" <->
  271 < length (strip headline)
        + match key_points with
          | p :: _ => 4 + length p
          | [] => 0
          end.
Proof.
  unfold build_tweet_text.
  pose proof (abbreviated_le_full (strip headline) (take 3 key_points)) as Hle.
  pose proof (abbreviated_length (strip headline) (take 3 key_points)) as Hlen.
  assert (Hfirst : match take 3 key_points with p :: _ => 4 + length p | [] => 0 end
                   = match key_points with p :: _ => 4 + length p | [] => 0 end)
    by now destruct key_points.
  rewrite Hfirst in Hlen.
  destruct (length (full_format _ _) <=? 260) eqn:Hfull.
  - apply Nat.leb_le in Hfull. cbn [snd]. split; [discriminate | lia].
  - destruct (length (abbreviated _ _) <=? 280) eqn:Habbr; cbn [snd].
    + apply Nat.leb_le in Habbr. split; [discriminate | lia].
    + apply Nat.leb_gt in Habbr. split; [lia | reflexivity].
Qed.

(* ===================================================================== *)
(** * More on summarize_news                                             *)
(* ===================================================================== *)

Lemma startswith_app p s : startswith p (p ++ s) = true.
Proof.
  induction p as [|c p IH]; [reflexivity|]. simpl.
  unfold char_eqb. now rewrite N.eqb_refl.
Qed.

Lemma startswith_app_l p a b :
  startswith p a = true -> startswith p (a ++ b) = true.
Proof.
  revert a. induction p as [|c p IH]; [reflexivity|].
  intros [|x a]; [discriminate|]. simpl.
  intros H. apply andb_true_iff in H as [Hc Hp].
  now rewrite Hc, IH.
Qed.

Lemma split_once_startswith sep s :
  startswith sep s = true -> split_once sep s = [[]; drop (length sep) s].
Proof. intros H. destruct s; simpl; now rewrite H. Qed.

Lemma parse_lines_from lines headline key_points :
  fold_left parse_line lines (headline, key_points)
    = (from_option headline_of_line headline
         (last (List.filter is_headline_line lines)),
       key_points ++ map clean_point (List.filter is_point_line lines)).
Proof.
  revert headline key_points.
  induction lines as [|line lines IH]; intros headline key_points.
  - simpl. now rewrite app_nil_r.
  - cbn [fold_left List.filter]. unfold parse_line at 2.
    unfold is_headline_line at 1, is_point_line at 1.
    destruct (startswith HEADLINE_TAG line) eqn:Htag.
    + rewrite IH, (split_once_startswith _ _ Htag). cbn [negb andb].
      f_equal. rewrite last_cons.
      now destruct (last (List.filter is_headline_line lines)).
    + cbn [negb andb].
      destruct (startswith BULLET (strip line)); rewrite IH; [|reflexivity].
      cbn [map]. now rewrite <- app_assoc.
Qed.

(** X12.  What the parsing loop of summarize_news keeps of the model's answer:
    the headline is taken from the last line that starts with HEADLINE:
    (its text after the tag, stripped), and the key points are, in order,
    the other lines that start with a bullet once stripped, each trimmed
    of bullet characters and spaces at both ends. *)
Theorem parse_summary_reads_lines content :
  parse_summary content
    = (from_option headline_of_line []
         (last (List.filter is_headline_line (splitlines content))),
       map clean_point (List.filter is_point_line (splitlines content))).
Proof. unfold parse_summary. apply parse_lines_from. Qed.

(** summarize_news makes no outside call for an empty list and exactly
    one, the chat completion with the messages built from the items, for
    a non-empty one, whatever the completion answers or raises; it never
    touches a file. *)
Theorem summarize_news_single_call env news_items w :
  snd (summarize_news env news_items w)
    = {| fs := fs w;
         trace := trace w ++ match news_items with
                             | [] => []
                             | _ => [EChatCompletion (messages news_items)]
                             end |}.
Proof.
  destruct news_items as [|first rest].
  - cbn. rewrite app_nil_r. now destruct w.
  - rewrite summarize_news_cons. cbn zeta.
    destruct (chat_completions_create env _) as [response|e];
      [|destruct e]; reflexivity.
Qed.

Lemma contains_startswith sub s : startswith sub s = true -> contains sub s = true.
Proof. intros H. destruct s; simpl; now rewrite H. Qed.

Lemma contains_app_l sub a b :
  contains sub a = true -> contains sub (a ++ b) = true.
Proof.
  induction a as [|x a IH]; simpl.
  - rewrite orb_false_r. intros H.
    apply contains_startswith. now apply (startswith_app_l sub [] b).
  - intros H. apply orb_true_iff in H as [H|H].
    + pose proof (startswith_app_l sub (x :: a) b H) as H'.
      simpl app in H'. now rewrite H'.
    + rewrite (IH H). apply orb_true_r.
Qed.

Lemma contains_app_r sub a b :
  contains sub b = true -> contains sub (a ++ b) = true.
Proof.
  intros H. induction a as [|x a IH]; [exact H|]. simpl.
  rewrite IH. apply orb_true_r.
Qed.

Lemma contains_self sub a b : contains sub (a ++ sub ++ b) = true.
Proof. apply contains_app_r, contains_startswith, startswith_app. Qed.

Lemma contains_join sub sep part parts :
  part ∈ parts -> contains sub part = true ->
  contains sub (join sep parts) = true.
Proof.
  intros Hin Hsub. induction parts as [|x parts IH]; [inversion Hin|].
  destruct parts as [|y parts].
  - apply list_elem_of_singleton in Hin. now subst.
  - cbn [join]. apply elem_of_cons in Hin as [->|Hin].
    + now apply contains_app_l.
    + apply contains_app_r, contains_app_r. now apply IH.
Qed.

(** X13.  No item is left out of the prompt: the title and the source of every
    news item occur in the user message sent to the model. *)
Theorem prompt_mentions_every_item news_items item :
  item ∈ news_items ->
  contains (title item) (prompt news_items) = true /\
  contains (source item) (prompt news_items) = true.
Proof.
  intros Hin.
  apply list_elem_of_lookup in Hin as [i Hi].
  assert (Hline : news_line i item ∈ imap news_line news_items).
  { apply list_elem_of_lookup. exists i. now rewrite list_lookup_imap, Hi. }
  assert (Hwithin : forall sub,
            contains sub (news_line i item) = true ->
            contains sub (prompt news_items) = true).
  { intros sub Hsub. unfold prompt, news_text.
    repeat match goal with
           | |- contains _ (?a ++ _) = true =>
               lazymatch a with
               | join _ _ => fail
               | _ => apply contains_app_r
               end
           end.
    apply contains_app_l.
    now apply (contains_join _ _ _ _ Hline). }
  split; apply Hwithin; unfold news_line.
  - rewrite (app_assoc (str_of_Z _)). apply contains_self.
  - do 5 apply contains_app_r. apply contains_startswith.
    rewrite <- (app_nil_r (source item)) at 2. apply startswith_app.
Qed.

Lemma prompt_mentions_every_item_witness :
  let a := sample_item (u "Bitcoin tops 70k") in
  let b := sample_item (u "ETH upgrade ships") in
  contains (title b) (prompt [a; b]) = true /\
  contains (source b) (prompt [a; b]) = true.
Proof.
  intros a b. apply prompt_mentions_every_item.
  apply elem_of_cons. right. apply elem_of_cons. now left.
Defined.

(* ===================================================================== *)
(** * Which outside calls a computation makes                            *)
(* ===================================================================== *)

Lemma emits_ret P {A} (a : A) : emits P (ret a).
Proof. intros w. exists []. split; [symmetry; apply app_nil_r | constructor]. Qed.

Lemma emits_raise P {A} e : emits P (@raise A e).
Proof. intros w. exists []. split; [symmetry; apply app_nil_r | constructor]. Qed.

Lemma emits_bind P {A B} (m : M A) (k : A -> M B) :
  emits P m -> (forall a, emits P (k a)) -> emits P (bind m k).
Proof.
  intros Hm Hk w. unfold bind. destruct (Hm w) as (e1 & H1 & F1).
  destruct (m w) as [[a|e] w1]; cbn [snd] in *; [|now exists e1].
  destruct (Hk a w1) as (e2 & H2 & F2). exists (e1 ++ e2). split.
  - now rewrite H2, H1, app_assoc.
  - now apply Forall_app.
Qed.

Lemma emits_attempt P {A} (m : M A) : emits P m -> emits P (attempt m).
Proof.
  intros Hm w. unfold attempt. specialize (Hm w). now destruct (m w).
Qed.

Lemma emits_try_except P {A} (body : M A) handler :
  emits P body -> (forall e, emits P (handler e)) ->
  emits P (try_except body handler).
Proof.
  intros Hb Hh. apply emits_bind; [now apply emits_attempt|].
  intros [a|e]; [apply emits_ret | apply Hh].
Qed.

Lemma emits_call (P : Event -> Prop) {A} ev (answer : outcome A) :
  P ev -> emits P (call ev answer).
Proof. intros Hev w. exists [ev]. split; [reflexivity|]. now constructor. Qed.

Lemma emits_write_bytes P p data : emits P (write_bytes p data).
Proof. intros w. exists []. split; [symmetry; apply app_nil_r | constructor]. Qed.

Lemma emits_temp_dir_mkdir P env : emits P (temp_dir_mkdir env).
Proof. intros w. exists []. split; [symmetry; apply app_nil_r | constructor]. Qed.

Lemma emits_weaken (P Q : Event -> Prop) {A} (m : M A) :
  (forall ev, P ev -> Q ev) -> emits P m -> emits Q m.
Proof.
  intros HPQ Hm w. destruct (Hm w) as (evs & H & F). exists evs.
  split; [exact H|]. eapply Forall_impl; eassumption.
Qed.

Lemma quiet_emits {A} (m : M A) :
  quiet m -> emits (fun ev => is_publisher_call ev = false) m.
Proof. intros Hm w. exact (Hm w). Qed.

(* ===================================================================== *)
(** * More on media acquisition                                          *)
(* ===================================================================== *)

(** X14.  _download_chart_image never raises and makes exactly one request, to
    the sparkline of the coin the symbol stands for (bitcoin for an
    unknown symbol).  It returns a path only for an answer with status
    200 and more than 1000 bytes, which it has then written at that path
    unchanged; otherwise it returns None and leaves the files alone. *)
Theorem download_chart_image_outcome env symbol w :
  exists r,
    fst (_download_chart_image env symbol w) = Return r /\
    trace (snd (_download_chart_image env symbol w))
      = trace w ++ [ERequestsGet (chart_url env symbol)] /\
    match r with
    | Some p =>
        p = chart_path env symbol /\
        exists content,
          requests_get env (chart_url env symbol) = Return (200%Z, content) /\
          1000 < length content /\
          fs (snd (_download_chart_image env symbol w))
            = <[p := content]> (fs w)
    | None => fs (snd (_download_chart_image env symbol w)) = fs w
    end.
Proof.
  unfold _download_chart_image, try_except, bind, attempt, call, write_bytes,
    temp_dir_mkdir, ret.
  fold (chart_url env symbol). fold (chart_path env symbol).
  destruct (requests_get env (chart_url env symbol))
    as [[status_code content]|e] eqn:Hget.
  - destruct (status_code =? 200)%Z eqn:Hstatus; cbn [andb];
      [|eexists; repeat split; reflexivity].
    destruct (truthy content); cbn [andb];
      [|eexists; repeat split; reflexivity].
    destruct (1000 <? len content)%Z eqn:Hsize;
      [|eexists; repeat split; reflexivity].
    destruct (temp_dir_created env) as [[]|e];
      [|eexists; repeat split; reflexivity].
    apply Z.eqb_eq in Hstatus. subst status_code.
    apply Z.ltb_lt in Hsize. unfold len in Hsize.
    eexists. split; [reflexivity|]. split; [reflexivity|].
    split; [reflexivity|]. exists content.
    split; [reflexivity|]. split; [lia | reflexivity].
  - eexists. repeat split; reflexivity.
Qed.

(** X15.  The selectors are probed in the order given; first_visible returns
    the first whose wait succeeds, None when every wait raises, and never
    raises itself. *)
Theorem first_visible_finds_first env selectors w :
  fst (first_visible env selectors w)
    = Return (List.find (fun sel => returns (page_waitForSelector env sel))
                        selectors).
Proof.
  revert w. induction selectors as [|sel rest IH]; intros w; [reflexivity|].
  cbn [first_visible List.find]. unfold bind, attempt, call.
  destruct (page_waitForSelector env sel); cbn [returns]; [reflexivity|].
  apply IH.
Qed.

Lemma capture_page_sizeable env url selector width height :
  ensures (capture_page env url selector width height)
    (fun r w => sizeable_file r w /\ forall p, r = Some p -> p = screenshot_path env).
Proof.
  unfold capture_page. fold (screenshot_path env).
  do 8 (apply ensures_bind; intros ?).
  intros w r w' H.
  unfold bind, path_exists, st_size, ret in H.
  destruct (bool_decide _) eqn:Hpresent; [|injection H as <- <-; split; intros p [=]].
  destruct (_ <? 1000)%Z eqn:Hsize; injection H as <- <-;
    [split; intros p [=]|].
  apply bool_decide_eq_true in Hpresent as [data Hdata].
  rewrite Hdata in Hsize. simpl in Hsize. apply Z.ltb_ge in Hsize.
  split; [|now intros p [= <-]].
  intros p [= <-]. exists data. split; [exact Hdata | lia].
Qed.

(** X16.  A path returned by _capture_screenshot is the screenshot path of the
    temporary directory, and the file there has at least 1000 bytes. *)
Theorem capture_screenshot_sizeable env url selector width height w p w' :
  _capture_screenshot env url selector width height w = (Return (Some p), w') ->
  p = screenshot_path env /\
  exists data, fs w' !! p = Some data /\ 1000 <= length data.
Proof.
  unfold _capture_screenshot, try_finally, try_except, attempt, call, ret,
    raise, bind.
  destruct (negb (launch_imported env)); [discriminate|].
  destruct (chromium_executable env) as [exe|]; [|discriminate].
  destruct (negb (truthy exe)); [discriminate|].
  destruct (browser_launch env exe) as [[]|e]; [|discriminate].
  pose proof (capture_page_sizeable env url selector width height
                {| fs := fs w; trace := trace w ++ [ELaunch exe] |}) as Hpage.
  destruct (capture_page env url selector width height _) as [[r|e] w1].
  - destruct (browser_close env) as [[]|e]; [|discriminate].
    intros [= -> <-]. destruct (Hpage _ _ eq_refl) as [Hsize Hpath].
    split; [now apply Hpath | now apply Hsize].
  - destruct (browser_close env) as [[]|e']; discriminate.
Qed.

Lemma capture_screenshot_sizeable_witness :
  let env := sample_env (Return (Some structured_answer))
               (Raise OtherException) (Return tt) (Return 7%Z)
               (Return None) [] in
  exists data w',
    _capture_screenshot env (u "https://www.coingecko.com/en/coins/bitcoin")
      (Some (u ".gecko-coin-detail-header")) 1200 400 empty_world
      = (Return (Some (screenshot_path env)), w') /\
    fs w' !! screenshot_path env = Some data /\ 1000 <= length data.
Proof.
  intros env.
  destruct (_capture_screenshot env
              (u "https://www.coingecko.com/en/coins/bitcoin")
              (Some (u ".gecko-coin-detail-header")) 1200 400 empty_world)
    as [r w'] eqn:Hrun.
  assert (Hr : r = Return (Some (screenshot_path env)))
    by (vm_compute in Hrun; injection Hrun as <- _; vm_compute; reflexivity).
  subst r.
  destruct (capture_screenshot_sizeable _ _ _ _ _ _ _ _ Hrun)
    as (_ & data & Hdata & Hsize).
  now exists data, w'.
Defined.

(** X17.  Once the browser has been launched, _capture_screenshot closes it on
    every path: whether the page steps return, raise, or produce no file,
    the outside calls it makes are the launch first and the close of the
    browser last. *)
Theorem capture_screenshot_closes_browser env url selector width height w exe :
  launch_imported env = true ->
  chromium_executable env = Some exe ->
  exe <> [] ->
  browser_launch env exe = Return tt ->
  exists evs,
    trace (snd (_capture_screenshot env url selector width height w))
      = trace w ++ [ELaunch exe] ++ evs ++ [EBrowserClose].
Proof.
  intros Himp Hexe Hne Hlaunch.
  unfold _capture_screenshot. rewrite Himp, Hexe, (truthy_cons _ Hne).
  cbn [negb]. unfold bind at 1. unfold call at 1. rewrite Hlaunch.
  pose proof (quiet_try_except (capture_page env url selector width height)
                (fun _ => ret None)
                (quiet_capture_page env url selector width height)
                (fun _ => quiet_ret None)
                {| fs := fs w; trace := trace w ++ [ELaunch exe] |})
    as (evs & Hevs & _).
  exists evs. unfold try_finally, bind, attempt, call.
  destruct (try_except _ _ _) as [[r|e] w1]; cbn [snd trace] in *;
    destruct (browser_close env) as [[]|e']; cbn [snd trace];
    rewrite Hevs, <- !app_assoc; reflexivity.
Qed.

Lemma capture_screenshot_closes_browser_witness :
  let env := with_page_waitForSelector
               (sample_env (Return (Some structured_answer))
                  (Raise OtherException) (Return tt) (Return 7%Z)
                  (Return None) [])
               (fun _ => Raise OtherException) in
  exists evs,
    trace (snd (_capture_screenshot env (u "https://example.org/story")
                  (Some (u "article, main")) 1200 800 empty_world))
      = trace empty_world ++ [ELaunch (u "/usr/bin/chromium")] ++ evs
          ++ [EBrowserClose].
Proof.
  intros env.
  apply capture_screenshot_closes_browser;
    [reflexivity | reflexivity | discriminate | reflexivity].
Defined.

(** X18.  The symbol generate_screenshot charts is the initial one (BTC, or
    bitcoin for the ticker) or a listed symbol that occurs in the
    case-folded title and description of some item; when no item mentions
    a listed symbol it is the initial one. *)
Theorem scan_symbol_mentioned fold_case symbols initial news_items :
  let symbol := scan_symbol fold_case symbols initial news_items in
  (symbol = initial \/
   symbol ∈ symbols /\
   exists item, item ∈ news_items /\
                contains symbol (fold_case (item_text item)) = true) /\
  ((forall item sym, item ∈ news_items -> sym ∈ symbols ->
      contains sym (fold_case (item_text item)) = false) ->
   symbol = initial).
Proof.
  cbn zeta. induction news_items as [|item rest [IH1 IH2]];
    [split; [now left | reflexivity]|].
  cbn [scan_symbol]. fold (item_text item).
  destruct (List.find _ symbols) as [sym|] eqn:Hfind.
  - apply find_some in Hfind as [Hin Hsub].
    apply list_elem_of_In in Hin.
    split.
    + destruct (str_eqb sym initial).
      * destruct IH1 as [->|(Hs & item' & Hi & Hc)]; [now left|].
        right. split; [exact Hs|]. exists item'. split; [now right | exact Hc].
      * right. split; [exact Hin|]. exists item. split; [now left | exact Hsub].
    + intros Hnone. rewrite (Hnone item sym) in Hsub; [discriminate| now left | exact Hin].
  - split.
    + destruct IH1 as [->|(Hs & item' & Hi & Hc)]; [now left|].
      right. split; [exact Hs|]. exists item'. split; [now right | exact Hc].
    + intros Hnone. apply IH2. intros item' sym Hi Hs.
      apply Hnone; [now right | exact Hs].
Qed.

Lemma scan_symbol_mentioned_witness :
  scan_symbol ascii_upper CRYPTO_SYMBOLS (u "BTC")
    [sample_item (u "Markets open flat")] = u "BTC".
Proof.
  refine (proj2 (scan_symbol_mentioned ascii_upper CRYPTO_SYMBOLS (u "BTC")
                   [sample_item (u "Markets open flat")]) _).
  intros item sym Hitem Hsym.
  apply list_elem_of_singleton in Hitem. subst item.
  repeat (apply elem_of_cons in Hsym as [->|Hsym]; [vm_compute; reflexivity|]).
  inversion Hsym.
Defined.

Lemma overlay_with_absorbs env headline key_points fonts w :
  exists r,
    fst (overlay_with env headline key_points fonts w) = Return r /\
    match r with
    | Some p =>
        exists font_name png,
          font_name ∈ fonts /\
          pillow_render env font_name headline key_points = Return png /\
          p = overlay_path env font_name /\
          fs (snd (overlay_with env headline key_points fonts w))
            = <[p := png]> (fs w)
    | None =>
        fs (snd (overlay_with env headline key_points fonts w)) = fs w /\
        forall font_name, font_name ∈ fonts ->
          returns (pillow_render env font_name headline key_points) = false
    end.
Proof.
  revert w. induction fonts as [|font_name rest IH]; intros w.
  - exists None. split; [reflexivity|]. split; [reflexivity|].
    intros f Hf. inversion Hf.
  - cbn [overlay_with]. unfold bind, attempt, call, write_bytes, ret.
    fold (overlay_path env font_name).
    destruct (pillow_render env font_name headline key_points) as [png|e] eqn:Hr.
    + exists (Some (overlay_path env font_name)). split; [reflexivity|].
      exists font_name, png. repeat split; [now left | exact Hr].
    + destruct (IH {| fs := fs w; trace := trace w ++ [EPillowRender font_name] |})
        as (r & Hfst & Hr').
      exists r. split; [exact Hfst|].
      destruct r as [p|].
      * destruct Hr' as (f & png & Hf & Hpng & Hp & Hfs).
        exists f, png. repeat split; [now right | exact Hpng | exact Hp | exact Hfs].
      * destruct Hr' as [Hfs Hall]. split; [exact Hfs|].
        intros f Hf. apply elem_of_cons in Hf as [->|Hf]; [now rewrite Hr | now apply Hall].
Qed.

(** X19.  generate_ai_image raises only when the temporary directory
    cannot be made: the mkdir stands before the font loop and outside its
    try, so its exception leaves the function before any drawing, with no
    outside call made and the files as they were.  Once the directory is
    made the function never raises: it returns the overlay path of a font
    variation whose drawing succeeded, the image then being the file at
    that path; it returns None, with the files as they were, only when
    the drawing failed for each of the four font variations. *)
Theorem generate_ai_image_outcome env headline key_points w :
  match temp_dir_created env with
  | Raise e => generate_ai_image env headline key_points w = (Raise e, w)
  | Return _ =>
      exists r,
        fst (generate_ai_image env headline key_points w) = Return r /\
        match r with
        | Some p =>
            exists font_name png,
              font_name ∈ font_variations /\
              pillow_render env font_name headline key_points = Return png /\
              p = overlay_path env font_name /\
              fs (snd (generate_ai_image env headline key_points w)) !! p
                = Some png
        | None =>
            fs (snd (generate_ai_image env headline key_points w)) = fs w /\
            forall font_name, font_name ∈ font_variations ->
              returns (pillow_render env font_name headline key_points) = false
        end
  end.
Proof.
  unfold generate_ai_image, bind, temp_dir_mkdir.
  destruct (temp_dir_created env) as [[]|e]; [|reflexivity].
  destruct (overlay_with_absorbs env headline key_points font_variations w)
    as (r & Hfst & Hr).
  exists r. split; [exact Hfst|]. destruct r as [p|]; [|exact Hr].
  destruct Hr as (f & png & Hf & Hpng & Hp & Hfs).
  exists f, png. repeat split; try assumption.
  rewrite Hfs. apply lookup_insert_eq.
Qed.

(** A temporary directory that cannot be made: the exception leaves
    generate_ai_image before the first drawing, and with it run. *)
Example generate_ai_image_mkdir_failure :
  let env := with_temp_dir_created
               (sample_env (Return (Some structured_answer))
                  (Return (repeat 0%N 2048)) (Return tt) (Return 7%Z)
                  (Return None) [sample_item (u "ETH rallies 8%")])
               (Raise OtherException) in
  generate_ai_image env (u "ETH rallies") [u "Up 8%"] empty_world
    = (Raise OtherException, empty_world) /\
  fst (run env (sample_options false (u "ai")) empty_world)
    = Raise OtherException.
Proof. split; vm_compute; reflexivity. Qed.

Lemma str_eqb_eq a b : str_eqb a b = true -> a = b.
Proof.
  revert b. induction a as [|x a IH]; intros [|y b]; simpl;
    try discriminate; [reflexivity|].
  intros H. apply andb_true_iff in H as [Hx Hab].
  apply N.eqb_eq in Hx. subst. f_equal. now apply IH.
Qed.

Lemma temp_file_truthy env name : truthy (temp_file env name) = true.
Proof. unfold temp_file. now destruct (gettempdir env). Qed.

(** What the chart download hands back: it returns, None or the chart
    path, after its one request. *)
Lemma download_chart_image_cases env symbol w :
  exists r w',
    _download_chart_image env symbol w = (Return r, w') /\
    (r = None \/ r = Some (chart_path env symbol)) /\
    trace w' = trace w ++ [ERequestsGet (chart_url env symbol)].
Proof.
  unfold _download_chart_image, try_except, bind, attempt, call, write_bytes,
    temp_dir_mkdir, ret.
  fold (chart_url env symbol). fold (chart_path env symbol).
  destruct (requests_get env (chart_url env symbol))
    as [[status_code content]|e].
  - destruct (_ && _); [destruct (temp_dir_created env) as [[]|e]|];
      eexists _, _; (split; [reflexivity|]); split;
      first [reflexivity | now left | now right].
  - eexists _, _. split; [reflexivity|]. split; [now left | reflexivity].
Qed.

(** X20.  Without pyppeteer generate_screenshot never raises and never
    reaches for a browser.  For the chart target, which an empty target
    also means, it is the chart download for the symbol scanned from the
    items and nothing more: it returns what _download_chart_image
    returns and leaves the world that download leaves, so its one outside
    call is the request to the chart URL of that symbol.  For every other
    target it returns None and leaves the world as it was, with no
    outside call at all, even for an empty item list. *)
Theorem generate_screenshot_without_pyppeteer env news_items target w :
  launch_imported env = false ->
  let symbol :=
    scan_symbol (str_upper env) CRYPTO_SYMBOLS (u "BTC") news_items in
  (target = [] \/ target = u "crypto-chart" ->
   generate_screenshot env news_items target w
     = _download_chart_image env symbol w /\
   exists r,
     fst (generate_screenshot env news_items target w) = Return r /\
     trace (snd (generate_screenshot env news_items target w))
       = trace w ++ [ERequestsGet (chart_url env symbol)]) /\
  (target <> [] -> target <> u "crypto-chart" ->
   generate_screenshot env news_items target w = (Return None, w)).
Proof.
  intros Himp symbol. split.
  - intros Htarget.
    assert (Hchart : str_eqb (if truthy target then target
                              else u "crypto-chart") (u "crypto-chart") = true)
      by (destruct Htarget as [-> | ->]; reflexivity).
    unfold generate_screenshot. cbn zeta. rewrite Hchart, Himp. cbn [negb].
    fold symbol. unfold bind.
    destruct (download_chart_image_cases env symbol w)
      as (r & w1 & Hdownload & Hr & Htrace).
    rewrite Hdownload.
    assert (Hsame : (if truthy_opt r then ret r else ret None) w1
                      = (Return r, w1)).
    { destruct Hr as [-> | ->]; [reflexivity|].
      cbn [truthy_opt]. unfold chart_path. now rewrite temp_file_truthy. }
    rewrite Hsame. split; [reflexivity|].
    exists r. split; [reflexivity | exact Htrace].
  - intros Hne Hother.
    assert (Hchart : str_eqb (if truthy target then target
                              else u "crypto-chart") (u "crypto-chart") = false).
    { destruct target as [|c t]; [congruence|]. cbn [truthy].
      destruct (str_eqb (c :: t) (u "crypto-chart")) eqn:Heq; [|reflexivity].
      now apply str_eqb_eq in Heq. }
    unfold generate_screenshot. cbn zeta. rewrite Hchart, Himp. cbn [negb].
    now destruct (str_eqb _ (u "crypto-ticker")).
Qed.

Lemma generate_screenshot_without_pyppeteer_witness :
  let env := with_launch_imported
               (sample_env (Return (Some structured_answer))
                  (Raise OtherException) (Return tt) (Return 7%Z)
                  (Return None) [])
               false in
  let news_items := [sample_item (u "ETH rallies 8%")] in
  (generate_screenshot env news_items (u "crypto-chart") empty_world
     = _download_chart_image env (u "ETH") empty_world /\
   exists r,
     fst (generate_screenshot env news_items (u "crypto-chart") empty_world)
       = Return r /\
     trace (snd (generate_screenshot env news_items (u "crypto-chart")
                   empty_world))
       = [ERequestsGet (u "https://www.coingecko.com/coins/ethereum/sparkline.png")]) /\
  generate_screenshot env [] (u "news-article") empty_world
    = (Return None, empty_world).
Proof.
  intros env news_items. split.
  - exact (proj1 (generate_screenshot_without_pyppeteer env news_items
                    (u "crypto-chart") empty_world eq_refl)
                 (or_intror eq_refl)).
  - apply (proj2 (generate_screenshot_without_pyppeteer env []
                    (u "news-article") empty_world eq_refl)); discriminate.
Defined.

Lemma emits_overlay_with env headline key_points fonts :
  emits is_pillow_render (overlay_with env headline key_points fonts).
Proof.
  induction fonts as [|font_name rest IH]; cbn [overlay_with];
    [apply emits_ret|].
  apply emits_bind.
  - apply emits_attempt, emits_bind; [apply emits_call; now eexists|].
    intros png. apply emits_bind; [apply emits_write_bytes|].
    intros _. apply emits_ret.
  - intros [p|e]; [apply emits_ret | exact IH].
Qed.

(** With use_openai_image_only set, the media step draws the overlay and
    does nothing else: its outside calls are Pillow renderings only (no
    chart download, no browser), whatever image_generation_type says. *)
Theorem prepare_media_overlay_only env opts news_items headline key_points :
  use_openai_image_only opts = true ->
  emits is_pillow_render
    (prepare_media env opts news_items headline key_points).
Proof.
  intros Hflag. unfold prepare_media. rewrite Hflag.
  destruct (use_image opts); [|apply emits_ret].
  unfold generate_ai_image.
  apply emits_bind; [apply emits_temp_dir_mkdir|].
  intros _. apply emits_overlay_with.
Qed.

Lemma prepare_media_overlay_only_witness :
  let env := sample_env (Return (Some structured_answer))
               (Return (repeat 0%N 2048)) (Return tt) (Return 7%Z)
               (Return None) [] in
  let opts := {| use_image := true;
                 image_generation_type := u "screenshot";
                 screenshot_target := u "crypto-chart";
                 crypto_news_enabled := true;
                 world_news_enabled := true;
                 dry_run := false;
                 use_openai_image_only := true |} in
  emits is_pillow_render
    (prepare_media env opts [sample_item (u "ETH rallies")] (u "ETH rallies")
       [u "Up 8%"]).
Proof.
  intros env opts. now apply prepare_media_overlay_only.
Defined.

(** X21.  With a browser that launches and closes, generate_screenshot on a
    non-empty item list never raises, for any target, and what it returns
    is None or the path of a file that exists when it returns. *)
Theorem generate_screenshot_with_browser env news_items target w :
  (forall exe, browser_launch env exe = Return tt) ->
  browser_close env = Return tt ->
  news_items <> [] ->
  exists r w',
    generate_screenshot env news_items target w = (Return r, w') /\
    forall p, r = Some p -> is_Some (fs w' !! p).
Proof.
  intros Hlaunch Hclose Hitems.
  assert (Hnone : forall w0 : World,
            exists (r : option (list N)) w',
              (Return (@None (list N)), w0) = (Return r, w') /\
              forall p, r = Some p -> is_Some (fs w' !! p))
    by (intros w0; exists None, w0; split; [reflexivity | intros p [=]]).
  unfold generate_screenshot. cbn zeta.
  destruct (str_eqb _ (u "crypto-chart")).
  - unfold bind.
    destruct (download_chart_image_returns env
                (scan_symbol (str_upper env) CRYPTO_SYMBOLS (u "BTC") news_items) w)
      as (chart & w1 & Hdownload & Hchart).
    rewrite Hdownload.
    destruct (truthy_opt chart); [now exists chart, w1|].
    destruct (launch_imported env); cbn [negb]; [|apply Hnone].
    now apply capture_screenshot_returns.
  - destruct (str_eqb _ (u "crypto-ticker"));
      (destruct (launch_imported env); cbn [negb]; [|apply Hnone]).
    + now apply capture_screenshot_returns.
    + destruct news_items as [|item rest]; [congruence|].
      now apply capture_screenshot_returns.
Qed.

Lemma generate_screenshot_with_browser_witness :
  let env := sample_env (Return (Some structured_answer))
               (Raise OtherException) (Return tt) (Return 7%Z)
               (Return None) [] in
  exists r w',
    generate_screenshot env [sample_item (u "ETH rallies 8%")]
      (u "crypto-chart") empty_world = (Return r, w') /\
    forall p, r = Some p -> is_Some (fs w' !! p).
Proof.
  intros env. apply generate_screenshot_with_browser;
    [intros exe; reflexivity | reflexivity | discriminate].
Defined.

(* ===================================================================== *)
(** * More on run                                                        *)
(* ===================================================================== *)

Lemma summarize_news_run env news_items w :
  summarize_news env news_items w
    = (summary_of env news_items,
       {| fs := fs w;
          trace := trace w ++ match news_items with
                              | [] => []
                              | _ => [EChatCompletion (messages news_items)]
                              end |}).
Proof.
  destruct news_items as [|first rest].
  - cbn. rewrite app_nil_r. now destruct w.
  - rewrite summarize_news_cons. unfold summary_of. cbn zeta.
    destruct (chat_completions_create env _) as [response|e];
      [|destruct e]; reflexivity.
Qed.

Lemma run_no_news_steps env opts w :
  gathered env opts = [] ->
  run env opts w
    = (Return no_news, {| fs := fs w; trace := trace w ++ fetch_calls opts |}).
Proof.
  intros Hnone. unfold run.
  rewrite (bind_return _ _ _ _ _ (gather_news_run env opts w)).
  now rewrite Hnone.
Qed.

(** run after the gathering of at least one item, step by step. *)
Lemma run_steps env opts w :
  gathered env opts <> [] ->
  run env opts w
    = let news_items := gathered env opts in
      let w1 := logged (EChatCompletion (messages news_items))
                  {| fs := fs w; trace := trace w ++ fetch_calls opts |} in
      match summary_of env news_items with
      | Raise e => (Raise e, w1)
      | Return (headline, key_points) =>
          let tweet_text := fst (build_tweet_text headline key_points) in
          let format_used := snd (build_tweet_text headline key_points) in
          match prepare_media env opts news_items headline key_points w1 with
          | (Raise e, w2) => (Raise e, w2)
          | (Return media_path, w2) =>
              if dry_run opts then
                (Return (preview tweet_text format_used),
                 match media_path with
                 | Some p => if truthy p then without_file p w2 else w2
                 | None => w2
                 end)
              else
                match post_tweet env tweet_text media_path w2 with
                | (Return post_result, w3) =>
                    (Return (dict_update post_result
                               (run_metadata headline key_points format_used)),
                     w3)
                | (Raise e, w3) => (Raise e, w3)
                end
          end
      end.
Proof.
  intros Hsome. unfold run.
  rewrite (bind_return _ _ _ _ _ (gather_news_run env opts w)).
  destruct (gathered env opts) as [|item rest] eqn:Hitems; [congruence|].
  cbn zeta. unfold bind at 1. rewrite summarize_news_run.
  destruct (summary_of env (item :: rest)) as [[headline key_points]|e];
    [|reflexivity].
  destruct (build_tweet_text headline key_points) as [tweet_text format_used].
  cbn [fst snd]. unfold bind at 1. unfold logged. cbn [fs trace].
  destruct (prepare_media env opts (item :: rest) headline key_points _)
    as [[media_path|e] w2]; [|reflexivity].
  destruct (dry_run opts).
  - destruct media_path as [p|]; [destruct (truthy p)|]; reflexivity.
  - unfold bind, ret.
    now destruct (post_tweet env tweet_text media_path w2) as [[post_result|e] w3].
Qed.

Lemma post_tweet_result_shape env text media_path w result w' :
  post_tweet env text media_path w = (Return result, w') ->
  exists tweet_id final_text image_url,
    result = tweet_result tweet_id final_text image_url.
Proof.
  destruct (media_usable media_path w) eqn:Husable.
  - destruct media_path as [p|]; [|discriminate].
    rewrite (post_tweet_usable _ _ _ _ Husable).
    unfold post_after_failure, post_finish.
    destruct (media_upload env p) as [media|e1];
      [cbn zeta; destruct (create_tweet env text (Some [media])) as [tweet_id|e1]|];
      try destruct e1; cbn zeta;
      try match goal with |- context [create_tweet env ?t None] =>
            destruct (create_tweet env t None) end;
      intros [= <- <-]; now eexists _, _, _.
  - rewrite (post_tweet_unusable _ _ _ _ Husable).
    destruct (create_tweet env text None); intros [= <- <-].
    now eexists _, _, _.
Qed.

(** Every dictionary run returns has one of two shapes.  It is the
    failure record exactly when no item was gathered; otherwise success
    is True and it carries the tweet text and a format that is one of
    full, abbreviated and minimal. *)
Theorem run_result_fields env opts w result w' :
  run env opts w = (Return result, w') ->
  (gathered env opts = [] /\ result = no_news) \/
  (gathered env opts <> [] /\
   result !! "success" = Some (PBool true) /\
   exists tweet_text format_used,
     result !! "tweetText" = Some (PStr tweet_text) /\
     result !! "format" = Some (PStr format_used) /\
     (format_used = u "full" \/ format_used = u "abbreviated" \/
      format_used = u "minimal")).
Proof.
  destruct (gathered env opts) as [|item rest] eqn:Hitems.
  - rewrite (run_no_news_steps env opts w Hitems). intros [= <- _]. now left.
  - assert (Hsome : gathered env opts <> []) by (rewrite Hitems; discriminate).
    rewrite (run_steps env opts w Hsome). cbn zeta. rewrite Hitems.
    destruct (summary_of env (item :: rest)) as [[headline key_points]|e];
      [|discriminate].
    pose proof (build_tweet_text_tier headline key_points) as Htier.
    destruct (prepare_media _ _ _ _ _ _) as [[media_path|e] w2]; [|discriminate].
    destruct (dry_run opts).
    + intros [= <- _]. right. split; [discriminate|].
      split; [reflexivity|]. eexists _, _.
      split; [reflexivity|]. split; [reflexivity | exact Htier].
    + destruct (post_tweet env _ media_path w2) as [[post_result|e] w3] eqn:Hpost;
        [|discriminate].
      destruct (post_tweet_result_shape _ _ _ _ _ _ Hpost)
        as (tweet_id & final_text & image_url & ->).
      intros [= <- _]. right. split; [discriminate|].
      split; [reflexivity|]. eexists _, _.
      split; [reflexivity|]. split; [reflexivity | exact Htier].
Qed.

Lemma run_result_fields_witness :
  let env := sample_env (Return (Some structured_answer))
               (Return (repeat 0%N 2048)) (Return tt) (Return 7%Z)
               (Return None) [sample_item (u "ETH rallies 8%")] in
  let opts := sample_options false (u "ai") in
  exists result w',
    run env opts empty_world = (Return result, w') /\
    result !! "success" = Some (PBool true) /\
    result !! "format" = Some (PStr (u "full")).
Proof.
  intros env opts.
  destruct (run env opts empty_world) as [[result|e] w'] eqn:Hrun;
    [|vm_compute in Hrun; discriminate Hrun].
  exists result, w'. split; [reflexivity|].
  destruct (run_result_fields _ _ _ _ _ Hrun)
    as [[Hnone _] | (_ & Hsuccess & tweet_text & format_used & _ & Hformat & _)];
    [vm_compute in Hnone; discriminate Hnone|].
  split; [exact Hsuccess|].
  rewrite Hformat. f_equal.
  vm_compute in Hrun. injection Hrun as <- _.
  vm_compute in Hformat. now injection Hformat as <-.
Defined.

(** X22.  With images switched off and dry_run unset, run never reaches for
    media: after the fetches and the one chat completion its only further
    outside call is the post, without media, of exactly the text
    build_tweet_text made of the summary; no file is touched. *)
Theorem run_text_only env opts w headline key_points :
  use_image opts = false ->
  dry_run opts = false ->
  gathered env opts <> [] ->
  summary_of env (gathered env opts) = Return (headline, key_points) ->
  snd (run env opts w)
    = {| fs := fs w;
         trace := trace w ++ fetch_calls opts
                    ++ [ EChatCompletion (messages (gathered env opts));
                         ECreateTweet
                           (fst (build_tweet_text headline key_points)) None ] |}.
Proof.
  intros Himage Hdry Hsome Hsummary.
  rewrite (run_steps env opts w Hsome). cbn zeta. rewrite Hsummary.
  unfold prepare_media. rewrite Himage, Hdry. unfold ret.
  rewrite post_tweet_unusable by reflexivity.
  unfold logged. cbn [fs trace].
  destruct (create_tweet env _ None); cbn [snd]; now rewrite <- !app_assoc.
Qed.

Lemma run_text_only_witness :
  let env := sample_env (Return (Some structured_answer))
               (Return (repeat 0%N 2048)) (Return tt) (Return 7%Z)
               (Return None) [sample_item (u "ETH rallies 8%")] in
  let opts := {| use_image := false;
                 image_generation_type := u "screenshot";
                 screenshot_target := u "crypto-chart";
                 crypto_news_enabled := true;
                 world_news_enabled := false;
                 dry_run := false;
                 use_openai_image_only := false |} in
  exists headline key_points,
    summary_of env (gathered env opts) = Return (headline, key_points) /\
    snd (run env opts empty_world)
      = {| fs := ∅;
           trace := [ EFetchCrypto;
                      EChatCompletion (messages (gathered env opts));
                      ECreateTweet
                        (fst (build_tweet_text headline key_points)) None ] |}.
Proof.
  intros env opts.
  destruct (summary_of env (gathered env opts)) as [[headline key_points]|e]
    eqn:Hsummary; [|vm_compute in Hsummary; discriminate Hsummary].
  exists headline, key_points. split; [reflexivity|].
  exact (run_text_only env opts empty_world headline key_points
           eq_refl eq_refl ltac:(discriminate) Hsummary).
Defined.

(** X23.  When run publishes (dry_run unset) and returns, the dictionary it
    returns carries the summary it posted from: headline and keyPoints as
    summarize_news gave them, format as the tier of build_tweet_text, next
    to the success, tweetId, tweetText and imageUrl of post_tweet. *)
Theorem run_published_metadata env opts w result w' :
  dry_run opts = false ->
  gathered env opts <> [] ->
  run env opts w = (Return result, w') ->
  exists headline key_points,
    summary_of env (gathered env opts) = Return (headline, key_points) /\
    result !! "headline" = Some (PStr headline) /\
    result !! "keyPoints" = Some (PList key_points) /\
    result !! "format"
      = Some (PStr (snd (build_tweet_text headline key_points))) /\
    result !! "success" = Some (PBool true) /\
    is_Some (result !! "tweetId") /\
    is_Some (result !! "tweetText") /\
    is_Some (result !! "imageUrl") /\
    result !! "dryRun" = None.
Proof.
  intros Hdry Hsome. rewrite (run_steps env opts w Hsome). cbn zeta.
  destruct (summary_of env (gathered env opts)) as [[headline key_points]|e];
    [|discriminate].
  destruct (prepare_media _ _ _ _ _ _) as [[media_path|e] w2]; [|discriminate].
  rewrite Hdry.
  destruct (post_tweet env _ media_path w2) as [[post_result|e] w3] eqn:Hpost;
    [|discriminate].
  destruct (post_tweet_result_shape _ _ _ _ _ _ Hpost)
    as (tweet_id & final_text & image_url & ->).
  intros [= <- _]. exists headline, key_points.
  repeat split; try reflexivity; now eexists.
Qed.

Lemma run_published_metadata_witness :
  let env := sample_env (Return (Some structured_answer))
               (Return (repeat 0%N 2048)) (Return tt) (Return 7%Z)
               (Return None) [sample_item (u "ETH rallies 8%")] in
  let opts := sample_options false (u "ai") in
  exists result w',
    run env opts empty_world = (Return result, w') /\
    is_Some (result !! "headline") /\
    is_Some (result !! "tweetId").
Proof.
  intros env opts.
  destruct (run env opts empty_world) as [[result|e] w'] eqn:Hrun;
    [|vm_compute in Hrun; discriminate Hrun].
  exists result, w'. split; [reflexivity|].
  destruct (run_published_metadata env opts _ _ _ eq_refl
              ltac:(vm_compute; discriminate) Hrun)
    as (headline & key_points & _ & Hh & _ & _ & _ & Hid & _).
  split; [rewrite Hh; now eexists | exact Hid].
Defined.

Lemma build_tweet_text_fits headline key_points :
  length (strip headline) <= 275 ->
  length (fst (build_tweet_text headline key_points)) <= 280.
Proof.
  intros Hshort. unfold build_tweet_text.
  destruct (length (full_format _ _) <=? 260) eqn:Hfull;
    [|destruct (length (abbreviated _ _) <=? 280) eqn:Habbr]; cbn [fst].
  - apply Nat.leb_le in Hfull.
    pose proof (strip_length (full_format (strip headline) (take 3 key_points))).
    lia.
  - apply Nat.leb_le in Habbr.
    pose proof (strip_length (abbreviated (strip headline) (take 3 key_points))).
    lia.
  - pose proof (strip_minimal_length (strip headline)). lia.
Qed.

Lemma emits_post_tweet_within_limit env text media_path :
  length text <= 280 ->
  (forall p link,
     uploadme_post env p = Return (Some link) -> length link <= 276) ->
  emits tweet_within_limit (post_tweet env text media_path).
Proof.
  intros Htext Hlinks w.
  assert (Hfinal : forall p,
            length (if truthy_opt (hosted_link env p)
                    then text_with_link text (default [] (hosted_link env p))
                    else text) <= 280).
  { intros p. destruct (hosted_link env p) as [link|] eqn:Hlink;
      cbn [truthy_opt default]; [|exact Htext].
    destruct (truthy link); [|exact Htext].
    apply text_with_link_length, (Hlinks p), hosted_link_answer, Hlink. }
  destruct (media_usable media_path w) eqn:Husable.
  - destruct media_path as [p|]; [|discriminate].
    rewrite (post_tweet_usable _ _ _ _ Husable).
    specialize (Hfinal p).
    unfold post_after_failure, post_finish, logged, without_file.
    destruct (media_upload env p) as [media|e1];
      [cbn zeta; destruct (create_tweet env text (Some [media])) as [tweet_id|e1]|];
      try destruct e1; cbn zeta;
      try destruct (truthy_opt (uploadme_api_key env));
      cbn [snd fs trace]; rewrite <- ?app_assoc;
      (eexists; split; [reflexivity|]); cbn [app];
      repeat (constructor; [cbn; first [exact I | assumption]|]);
      constructor.
  - rewrite (post_tweet_unusable _ _ _ _ Husable). cbn [snd trace].
    eexists. split; [reflexivity|].
    constructor; [exact Htext | constructor].
Qed.

(** X24.  No post of run exceeds 280 characters, on any path and in any mode,
    provided the headline of the summary, stripped, has at most 275
    characters and the image host answers with links of at most 276. *)
Theorem run_posts_within_limit env opts :
  (forall headline key_points,
     summary_of env (gathered env opts) = Return (headline, key_points) ->
     length (strip headline) <= 275) ->
  (forall p link,
     uploadme_post env p = Return (Some link) -> length link <= 276) ->
  emits tweet_within_limit (run env opts).
Proof.
  intros Hheadline Hlinks w.
  assert (Hfetch : Forall tweet_within_limit (fetch_calls opts)).
  { unfold fetch_calls.
    destruct (crypto_news_enabled opts), (world_news_enabled opts);
      repeat constructor. }
  assert (Hcase : gathered env opts = [] \/ gathered env opts <> [])
    by (destruct (gathered env opts); [now left | now right]).
  destruct Hcase as [Hnone|Hsome].
  { rewrite (run_no_news_steps env opts w Hnone). now eexists. }
  rewrite (run_steps env opts w Hsome). cbn zeta.
  set (chat := EChatCompletion (messages (gathered env opts))).
  assert (Hstart : Forall tweet_within_limit (fetch_calls opts ++ [chat]))
    by (apply Forall_app; split; [exact Hfetch | repeat constructor]).
  destruct (summary_of env (gathered env opts)) as [[headline key_points]|e]
    eqn:Hsummary.
  2:{ exists (fetch_calls opts ++ [chat]). split; [|exact Hstart].
      cbn [snd logged trace]. now rewrite <- app_assoc. }
  pose proof (build_tweet_text_fits headline key_points
                (Hheadline _ _ eq_refl)) as Hfits.
  pose proof (quiet_prepare_media env opts (gathered env opts) headline
                key_points
                (logged chat {| fs := fs w; trace := trace w ++ fetch_calls opts |}))
    as (media_calls & Hmedia & Hquiet).
  assert (Hmedia_ok : Forall tweet_within_limit media_calls).
  { eapply Forall_impl; [exact Hquiet|].
    intros [] Hev; try exact I; discriminate Hev. }
  destruct (prepare_media _ _ _ _ _ _) as [[media_path|e] w2];
    cbn [snd logged trace] in Hmedia.
  2:{ exists ((fetch_calls opts ++ [chat]) ++ media_calls).
      split; [|now apply Forall_app].
      cbn [snd]. now rewrite Hmedia, <- !app_assoc. }
  destruct (dry_run opts).
  { exists ((fetch_calls opts ++ [chat]) ++ media_calls).
    split; [|now apply Forall_app].
    destruct media_path as [p|]; [destruct (truthy p)|];
      cbn [snd without_file trace]; now rewrite Hmedia, <- !app_assoc. }
  pose proof (emits_post_tweet_within_limit env
                (fst (build_tweet_text headline key_points)) media_path
                Hfits Hlinks w2) as (post_calls & Hpost & Hpost_ok).
  exists (((fetch_calls opts ++ [chat]) ++ media_calls) ++ post_calls).
  split; [|apply Forall_app; split;
            [apply Forall_app; split; assumption | exact Hpost_ok]].
  destruct (post_tweet _ _ _ w2) as [[post_result|e] w3];
    cbn [snd] in *; now rewrite Hpost, Hmedia, <- !app_assoc.
Qed.

Lemma run_posts_within_limit_witness :
  let env := sample_env (Return (Some structured_answer))
               (Return (repeat 0%N 2048)) (Return tt) (Raise Forbidden)
               (Return (Some hosted_url)) [sample_item (u "ETH rallies 8%")] in
  emits tweet_within_limit (run env (sample_options false (u "ai"))).
Proof.
  intros env. apply run_posts_within_limit.
  - intros headline key_points Hsummary.
    vm_compute in Hsummary. injection Hsummary as <- _.
    apply Nat.leb_le. vm_compute. reflexivity.
  - intros p link [= <-]. apply Nat.leb_le. vm_compute. reflexivity.
Defined.

(* ===================================================================== *)
(** * _extract_hashtags                                                  *)
(* ===================================================================== *)

Lemma str_eqb_refl a : str_eqb a a = true.
Proof.
  induction a as [|x a IH]; [reflexivity|]. simpl.
  unfold char_eqb. now rewrite N.eqb_refl.
Qed.

Lemma in_list_true x l : in_list x l = true <-> x ∈ l.
Proof.
  unfold in_list. rewrite existsb_exists. split.
  - intros (y & Hy & Heq). apply str_eqb_eq in Heq. subst.
    now apply list_elem_of_In.
  - intros Hin. exists x. split; [now apply list_elem_of_In | apply str_eqb_refl].
Qed.

Lemma in_list_false x l : in_list x l = false <-> x ∉ l.
Proof.
  rewrite <- in_list_true. destruct (in_list x l); split; congruence.
Qed.

Section AppendIfNew.
Context (cond : bool) (hashtag : str) (hashtags : list str).

Lemma append_if_new_NoDup :
  NoDup hashtags -> NoDup (append_if_new cond hashtag hashtags).
Proof.
  intros Hnd. unfold append_if_new.
  destruct cond; cbn [andb]; [|exact Hnd].
  destruct (in_list hashtag hashtags) eqn:Hin; cbn [negb]; [exact Hnd|].
  apply in_list_false in Hin.
  apply NoDup_app. split; [exact Hnd|]. split.
  - intros x Hx Hx'. apply list_elem_of_singleton in Hx'. now subst.
  - apply NoDup_singleton.
Qed.

Lemma append_if_new_Forall (P : str -> Prop) :
  P hashtag -> Forall P hashtags -> Forall P (append_if_new cond hashtag hashtags).
Proof.
  intros Hp Hall. unfold append_if_new.
  destruct (cond && negb _); [|exact Hall].
  apply Forall_app. split; [exact Hall | now constructor].
Qed.

Lemma append_if_new_fresh :
  cond = true -> hashtag ∉ hashtags ->
  append_if_new cond hashtag hashtags = hashtags ++ [hashtag].
Proof.
  intros -> Hnew. unfold append_if_new.
  apply in_list_false in Hnew. now rewrite Hnew.
Qed.

Lemma append_if_new_skip :
  cond = false -> append_if_new cond hashtag hashtags = hashtags.
Proof. now intros ->. Qed.
End AppendIfNew.

Lemma keyword_hashtags_inv text :
  NoDup (keyword_hashtags text) /\ Forall keyword_tag (keyword_hashtags text).
Proof.
  unfold keyword_hashtags.
  assert (Hgen : forall entries tags,
            Forall (fun entry => keyword_tag (snd entry)) entries ->
            NoDup tags -> Forall keyword_tag tags ->
            let r := fold_left (fun hashtags entry =>
                        append_if_new (contains (fst entry) text) (snd entry)
                          hashtags) entries tags in
            NoDup r /\ Forall keyword_tag r).
  { induction entries as [|entry entries IH]; intros tags Hentries Hnd Hall;
      [now split|].
    inversion Hentries; subst. cbn [fold_left]. apply IH; [assumption| |].
    - now apply append_if_new_NoDup.
    - now apply append_if_new_Forall. }
  apply Hgen; [|constructor|constructor].
  apply Forall_forall. intros entry Hentry.
  unfold keyword_tag. apply list_elem_of_fmap. now exists entry.
Qed.

Lemma default_not_keyword default :
  default ∈ default_hashtags -> ~ keyword_tag default.
Proof.
  intros Hd Hk. apply in_list_true in Hk.
  repeat (apply elem_of_cons in Hd as [->|Hd]; [vm_compute in Hk; discriminate|]).
  inversion Hd.
Qed.

Lemma fill_from_length defaults tags :
  NoDup defaults ->
  Forall (fun default => default ∉ tags) defaults ->
  3 <= length tags + length defaults ->
  3 <= length (fold_left (fun tags default =>
                            append_if_new (length tags <? 3) default tags)
                         defaults tags).
Proof.
  revert tags. induction defaults as [|default rest IH];
    intros tags Hnd Hfresh Hlen; [simpl in *; lia|].
  apply NoDup_cons in Hnd as [Hhead Hnd].
  inversion Hfresh as [|? ? Hnew Hfresh']; subst.
  cbn [fold_left]. destruct (length tags <? 3) eqn:Hfew.
  - rewrite append_if_new_fresh by (reflexivity || assumption).
    apply IH; [exact Hnd| |rewrite length_app; simpl in *; lia].
    apply Forall_forall. intros d Hd Hin.
    apply elem_of_app in Hin as [Hin|Hin].
    + rewrite Forall_forall in Hfresh'. now apply (Hfresh' d).
    + apply list_elem_of_singleton in Hin. now subst.
  - rewrite append_if_new_skip by reflexivity.
    apply Nat.ltb_ge in Hfew. apply IH; [exact Hnd | exact Hfresh' | lia].
Qed.

Lemma fill_defaults_inv tags :
  NoDup tags -> Forall keyword_tag tags ->
  NoDup (fill_defaults tags) /\
  Forall (fun tag => tag ∈ known_hashtags) (fill_defaults tags) /\
  3 <= length (fill_defaults tags).
Proof.
  intros Hnd Hall. unfold fill_defaults.
  assert (Hknown : Forall (fun tag => tag ∈ known_hashtags) tags).
  { eapply Forall_impl; [exact Hall|]. intros tag Htag.
    apply elem_of_app. now left. }
  split; [|split].
  - cbn [fold_left default_hashtags]. now repeat apply append_if_new_NoDup.
  - cbn [fold_left default_hashtags].
    repeat apply append_if_new_Forall; try exact Hknown;
      apply elem_of_app; right; apply list_elem_of_In; simpl; auto.
  - apply fill_from_length.
    + repeat (apply NoDup_cons; split;
              [intros Hin; repeat (apply elem_of_cons in Hin as [Hin|Hin];
                                   [discriminate Hin|]); inversion Hin|]).
      apply NoDup_nil_2.
    + apply Forall_forall. intros d Hd Hin.
      apply (default_not_keyword d Hd).
      rewrite Forall_forall in Hall. now apply Hall.
    + simpl. lia.
Qed.

Lemma select_hashtags_inv text :
  NoDup (select_hashtags text) /\
  Forall (fun tag => tag ∈ known_hashtags) (select_hashtags text) /\
  3 <= length (select_hashtags text).
Proof.
  unfold select_hashtags.
  destruct (keyword_hashtags_inv text) as [Hnd Hall].
  destruct (keyword_hashtags text) as [|tag tags] eqn:Htags.
  - split; [|split; [|simpl; lia]].
    + repeat (apply NoDup_cons; split;
              [intros Hin; repeat (apply elem_of_cons in Hin as [Hin|Hin];
                                   [discriminate Hin|]); inversion Hin|]).
      apply NoDup_nil_2.
    + apply Forall_forall. intros d Hd. apply elem_of_app. now right.
  - destruct (length (tag :: tags) <? 3) eqn:Hfew.
    + apply fill_defaults_inv.
      * now repeat apply append_if_new_NoDup.
      * repeat apply append_if_new_Forall; try exact Hall;
          apply list_elem_of_In; simpl; auto 25.
    + apply Nat.ltb_ge in Hfew. split; [exact Hnd|]. split; [|exact Hfew].
      eapply Forall_impl; [exact Hall|]. intros t Ht.
      apply elem_of_app. now left.
Qed.

(** X25.  _extract_hashtags always returns exactly three hashtags separated by
    single spaces, all different, each one of the hashtags the function
    knows: it fills up with #Crypto, #Tech and #News when fewer than three
    keywords are found, and cuts after the third when more are. *)
Theorem extract_hashtags_three env headline key_points :
  exists a b c,
    _extract_hashtags env headline key_points
      = a ++ u " " ++ b ++ u " " ++ c /\
    NoDup [a; b; c] /\
    Forall (fun tag => tag ∈ known_hashtags) [a; b; c].
Proof.
  unfold _extract_hashtags. cbn zeta.
  destruct (select_hashtags_inv
              (str_upper env (headline ++ u " " ++ join (u " ") key_points)))
    as (Hnd & Hall & Hlen).
  destruct (select_hashtags _) as [|a [|b [|c rest]]]; simpl in Hlen; try lia.
  exists a, b, c. split; [reflexivity|]. split.
  - change (a :: b :: c :: rest) with ([a; b; c] ++ rest) in Hnd.
    now apply NoDup_app in Hnd as [Hnd _].
  - change (a :: b :: c :: rest) with ([a; b; c] ++ rest) in Hall.
    now apply Forall_app in Hall as [Hall _].
Qed.

(* ===================================================================== *)
(** * _wrap_text                                                         *)
(* ===================================================================== *)

Lemma split_ws_words s : Forall is_word (split_ws s).
Proof.
  induction s as [|c s IH]; [constructor|]. cbn [split_ws].
  destruct (isspace c) eqn:Hc; [exact IH|].
  assert (Hone : is_word [c]) by (split; [discriminate | now repeat constructor]).
  destruct s as [|d s']; [now repeat constructor|].
  destruct (isspace d); [now constructor|].
  destruct (split_ws (d :: s')) as [|w ws]; [now repeat constructor|].
  inversion IH as [|? ? [Hw Hchars] Hws]; subst.
  constructor; [|exact Hws]. split; [discriminate | now constructor].
Qed.

Lemma split_ws_word_app w s :
  is_word w ->
  (s = [] \/ exists c s', s = c :: s' /\ isspace c = true) ->
  split_ws (w ++ s) = w :: split_ws s.
Proof.
  intros [Hne Hchars] Hs. induction w as [|x w IH]; [congruence|].
  inversion Hchars as [|? ? Hx Hw]; subst.
  cbn [app split_ws]. rewrite Hx.
  destruct w as [|y w'].
  - cbn [app]. destruct Hs as [->|(c & s' & -> & Hc)]; [reflexivity|].
    now rewrite Hc.
  - cbn [app]. inversion Hw as [|? ? Hy _]; subst. rewrite Hy.
    change (y :: w' ++ s) with ((y :: w') ++ s).
    now rewrite IH by (discriminate || assumption).
Qed.

Lemma split_ws_join words :
  Forall is_word words -> split_ws (join (u " ") words) = words.
Proof.
  induction words as [|w words IH]; [reflexivity|].
  intros Hall. inversion Hall as [|? ? Hw Hrest]; subst.
  destruct words as [|w2 words].
  - cbn [join]. rewrite <- (app_nil_r w) at 1.
    rewrite split_ws_word_app; [reflexivity | exact Hw | now left].
  - cbn [join]. rewrite split_ws_word_app; [|exact Hw|].
    + f_equal. change (u " " ++ join (u " ") (w2 :: words))
        with (32%N :: join (u " ") (w2 :: words)).
      cbn [split_ws]. change (isspace 32) with true. cbn iota.
      now apply IH.
    + right. now eexists _, _.
Qed.

Section Wrap.
Context (text_width : str -> Z) (max_width : Z).

Lemma wrap_fold_groups words : forall groups current_line,
  Forall (good_group text_width max_width) groups ->
  (current_line = [] \/ good_group text_width max_width current_line) ->
  exists groups' current_line',
    fold_left (wrap_step text_width max_width) words
        (map (join (u " ")) groups, current_line)
      = (map (join (u " ")) groups', current_line') /\
    Forall (good_group text_width max_width) groups' /\
    (current_line' = [] \/ good_group text_width max_width current_line') /\
    concat groups' ++ current_line' = concat groups ++ current_line ++ words.
Proof.
  induction words as [|word words IH]; intros groups current_line Hgroups Hcur.
  - exists groups, current_line. now rewrite app_nil_r.
  - cbn [fold_left]. unfold wrap_step at 2.
    destruct (_ <=? max_width)%Z eqn:Hfits.
    + apply Z.leb_le in Hfits.
      destruct (IH groups (current_line ++ [word]) Hgroups)
        as (groups' & current' & Hfold & Hg & Hc & Hwords).
      { right. split; [now destruct current_line | now left]. }
      exists groups', current'. rewrite Hfold, Hwords, <- !app_assoc.
      now repeat split.
    + assert (Hsingle : good_group text_width max_width [word])
        by (split; [discriminate | now right]).
      destruct current_line as [|first others].
      * destruct (IH groups [word] Hgroups (or_intror Hsingle))
          as (groups' & current' & Hfold & Hg & Hc & Hwords).
        exists groups', current'. rewrite Hfold, Hwords. now repeat split.
      * destruct Hcur as [Hcur|Hcur]; [discriminate|].
        destruct (IH (groups ++ [first :: others]) [word])
          as (groups' & current' & Hfold & Hg & Hc & Hwords).
        { apply Forall_app. split; [exact Hgroups | now constructor]. }
        { now right. }
        exists groups', current'.
        rewrite map_app in Hfold. cbn [map] in Hfold.
        rewrite Hfold, Hwords, concat_app. cbn [concat].
        rewrite app_nil_r, <- !app_assoc. now repeat split.
Qed.

(** The lines of _wrap_text as groups of the words of the text. *)
Lemma wrap_text_groups text :
  exists groups,
    Forall (good_group text_width max_width) groups /\
    concat groups = split_ws text /\
    _wrap_text text_width text max_width
      = match groups with
        | [] => [text]
        | _ => map (join (u " ")) groups
        end.
Proof.
  unfold _wrap_text.
  destruct (wrap_fold_groups (split_ws text) [] [])
    as (groups & current & Hfold & Hg & Hc & Hwords);
    [constructor | now left|].
  cbn [map] in Hfold. rewrite Hfold. cbn [concat app] in Hwords.
  destruct current as [|word current].
  - exists groups. rewrite app_nil_r in Hwords.
    split; [exact Hg|]. split; [exact Hwords|].
    now destruct groups.
  - destruct Hc as [Hc|Hc]; [discriminate|].
    exists (groups ++ [word :: current]).
    split; [apply Forall_app; split; [exact Hg | now constructor]|].
    split; [rewrite concat_app; cbn [concat]; now rewrite app_nil_r|].
    rewrite map_app. cbn [map].
    destruct groups; reflexivity.
Qed.

(** X26.  _wrap_text loses and reorders no word.  It never returns an empty
    list; the words of its lines, read line after line, are the words of
    the text; and a line is wider than max_width only when it is a single
    word (or the blank text itself). *)
Theorem wrap_text_keeps_words text :
  let lines := _wrap_text text_width text max_width in
  lines <> [] /\
  concat (map split_ws lines) = split_ws text /\
  Forall (fun line => (text_width line <= max_width)%Z \/
                      length (split_ws line) <= 1) lines.
Proof.
  cbn zeta. destruct (wrap_text_groups text) as (groups & Hgood & Hwords & ->).
  destruct groups as [|group groups].
  - cbn [concat] in Hwords. rewrite <- Hwords.
    split; [discriminate|]. split; [now cbn; rewrite <- Hwords|].
    constructor; [right; rewrite <- Hwords; simpl; lia | constructor].
  - assert (Hall : Forall (Forall is_word) (group :: groups)).
    { apply Forall_concat. rewrite Hwords. apply split_ws_words. }
    assert (Hback : map split_ws (map (join (u " ")) (group :: groups))
                    = group :: groups).
    { rewrite map_map. rewrite <- (map_id (group :: groups)) at 2.
      apply map_ext_Forall. eapply Forall_impl; [exact Hall|].
      intros g Hg. now apply split_ws_join. }
    split; [discriminate|]. split; [now rewrite Hback|].
    apply Forall_map, Forall_forall. intros g Hg.
    rewrite Forall_forall in Hgood, Hall.
    destruct (Hgood g Hg) as [_ [Hfit|Hone]]; [now left|].
    right. rewrite split_ws_join by now apply Hall. lia.
Qed.
End Wrap.

(* ===================================================================== *)
(** * resolve_config and trigger_run                                     *)
(* ===================================================================== *)

Lemma missing_spec config name :
  name ∈ Service.missing config <->
  exists value, (name, value) ∈ Service.required config /\ value = [].
Proof.
  unfold Service.missing. rewrite list_elem_of_In, in_map_iff. split.
  - intros ([n v] & <- & Hin). apply filter_In in Hin as [Hin Hv].
    exists v. split; [now apply list_elem_of_In|].
    cbn [snd] in Hv. now destruct v.
  - intros (value & Hin & ->). exists (name, []).
    split; [reflexivity|]. apply filter_In.
    split; [now apply list_elem_of_In | reflexivity].
Qed.

(** X28.  resolve_config returns the config only when each of the four Twitter
    credentials and the OpenAI key is non-empty in it; otherwise it raises
    HTTPException with status 400 and the detail Missing credentials:
    followed by the names, separated by comma and space, of exactly the
    required keys whose value is empty.  A credential of the request that
    is not empty is the one the config holds, whatever the environment
    says. *)
Theorem resolve_config_outcome environ req :
  match Service.resolve_config environ req with
  | Service.Resolved config =>
      config = Service.build_config environ req /\
      Forall (fun entry => snd entry <> []) (Service.required config)
  | Service.HTTPException status_code detail =>
      status_code = 400%Z /\
      exists keys,
        keys <> [] /\
        detail = u "Missing credentials: " ++ join (u ", ") keys /\
        forall name,
          name ∈ keys <->
          exists value,
            (name, value) ∈ Service.required (Service.build_config environ req)
            /\ value = []
  end /\
  (forall given,
     given <> [] ->
     forall name, Service.or_getenv environ (Some given) name = given).
Proof.
  split.
  - unfold Service.resolve_config. cbn zeta.
    destruct (Service.missing (Service.build_config environ req))
      as [|key keys] eqn:Hmissing.
    + split; [reflexivity|]. apply Forall_forall. intros [name value] Hin Hempty.
      cbn [snd] in Hempty. subst value.
      assert (Hname : name ∈ Service.missing (Service.build_config environ req))
        by (apply missing_spec; now exists []).
      rewrite Hmissing in Hname. inversion Hname.
    + split; [reflexivity|]. exists (key :: keys).
      split; [discriminate|]. split; [reflexivity|].
      intros name. rewrite <- Hmissing. apply missing_spec.
  - intros given Hgiven name. unfold Service.or_getenv.
    cbn [truthy_opt]. now rewrite (truthy_cons _ Hgiven).
Qed.

Lemma run_result_shape env opts w result w' :
  run env opts w = (Return result, w') ->
  result = no_news \/
  (exists tweet_text format_used, result = preview tweet_text format_used) \/
  (exists tweet_id final_text image_url headline key_points format_used,
     result = dict_update (tweet_result tweet_id final_text image_url)
                (run_metadata headline key_points format_used)).
Proof.
  assert (Hcase : gathered env opts = [] \/ gathered env opts <> [])
    by (destruct (gathered env opts); [now left | now right]).
  destruct Hcase as [Hnone|Hsome].
  - rewrite (run_no_news_steps env opts w Hnone). intros [= <- _]. now left.
  - rewrite (run_steps env opts w Hsome). cbn zeta.
    destruct (summary_of env (gathered env opts)) as [[headline key_points]|e];
      [|discriminate].
    destruct (prepare_media _ _ _ _ _ _) as [[media_path|e] w2]; [|discriminate].
    destruct (dry_run opts).
    + intros [= <- _]. right. left. now eexists _, _.
    + destruct (post_tweet env _ media_path w2) as [[post_result|e] w3] eqn:Hpost;
        [|discriminate].
      destruct (post_tweet_result_shape _ _ _ _ _ _ Hpost)
        as (tweet_id & final_text & image_url & ->).
      intros [= <- _]. right. right. now eexists _, _, _, _, _, _.
Qed.

(** X29.  trigger_run stops before any outside call when a required credential
    is missing, answering with the 400 of resolve_config; and with dryRun
    set, which is the default of a request, it never calls the publisher. *)
Theorem trigger_run_guards environ env req :
  (forall status_code detail w,
     Service.resolve_config environ req
       = Service.HTTPException status_code detail ->
     Service.trigger_run environ env req w
       = (Return (Service.BadRequest status_code detail), w)) /\
  (Service.dryRun req = true ->
   quiet (Service.trigger_run environ env req)) /\
  (forall creds, Service.dryRun (Service.default_request creds) = true).
Proof.
  split; [|split].
  - intros status_code detail w Hbad. unfold Service.trigger_run.
    now rewrite Hbad.
  - intros Hdry. unfold Service.trigger_run.
    destruct (Service.resolve_config environ req) as [config|status detail];
      [|apply quiet_ret].
    apply quiet_bind; [now apply quiet_run_dry|].
    intros result. destruct (Service.to_response result); apply quiet_ret.
  - reflexivity.
Qed.

Lemma trigger_run_guards_witness :
  let env := sample_env (Return (Some structured_answer))
               (Return (repeat 0%N 2048)) (Return tt) (Return 7%Z)
               (Return None) [sample_item (u "ETH rallies 8%")] in
  let req := Service.default_request None in
  Service.trigger_run (fun _ => None) env req empty_world
    = (Return (Service.BadRequest 400
                 (u "Missing credentials: twitter_api_key, twitter_api_secret, twitter_access_token, twitter_access_secret, openai_api_key")),
       empty_world) /\
  quiet (Service.trigger_run (fun _ => Some (u "secret")) env req).
Proof.
  intros env req.
  destruct (trigger_run_guards (fun _ => None) env req) as [Hbad _].
  destruct (trigger_run_guards (fun _ => Some (u "secret")) env req)
    as (_ & Hquiet & _).
  split; [now apply Hbad | now apply Hquiet].
Defined.

(** X30.  Whatever run returns passes the response model: trigger_run never
    ends in a validation error.  A response with success False carries
    the error No news items found and nothing else; one with success True
    carries the tweet text and the format, and a tweetId only when it was
    not a dry run. *)
Theorem trigger_run_response environ env req w served w' :
  Service.trigger_run environ env req w = (Return served, w') ->
  (exists status_code detail, served = Service.BadRequest status_code detail) \/
  exists response,
    served = Service.Responded response /\
    if Service.success response then
      is_Some (Service.resp_tweetText response) /\
      is_Some (Service.resp_format response) /\
      Service.resp_error response = None /\
      (Service.resp_dryRun response = Some true ->
       Service.resp_tweetId response = None)
    else
      Service.resp_error response = Some (u "No news items found") /\
      Service.resp_tweetText response = None /\
      Service.resp_tweetId response = None.
Proof.
  unfold Service.trigger_run.
  destruct (Service.resolve_config environ req) as [config|status detail].
  2:{ intros [= <- _]. left. now eexists _, _. }
  unfold bind.
  destruct (run _ _ w) as [[result|e] w1] eqn:Hrun; [|discriminate].
  apply run_result_shape in Hrun
    as [-> | [(t & f & ->) | (id & t & url & h & k & f & ->)]].
  - intros [= <- _]. right. eexists. split; [reflexivity|].
    cbn. repeat split.
  - intros [= <- _]. right. eexists. split; [reflexivity|].
    cbn. repeat split; now eexists.
  - destruct id as [id|], url as [url|]; intros [= <- _]; right;
      (eexists; split; [reflexivity|]); cbn;
      (repeat split; try (now eexists)); discriminate.
Qed.

Lemma trigger_run_response_witness :
  let env := sample_env (Return (Some structured_answer))
               (Return (repeat 0%N 2048)) (Return tt) (Return 7%Z)
               (Return None) [sample_item (u "ETH rallies 8%")] in
  let req := Service.default_request None in
  exists response w',
    Service.trigger_run (fun _ => Some (u "secret")) env req empty_world
      = (Return (Service.Responded response), w') /\
    Service.success response = true /\
    Service.resp_tweetId response = None.
Proof.
  intros env req.
  destruct (Service.trigger_run (fun _ => Some (u "secret")) env req
              empty_world) as [[served|e] w'] eqn:Hrun;
    [|vm_compute in Hrun; discriminate Hrun].
  destruct (trigger_run_response _ _ _ _ _ _ Hrun)
    as [(status & detail & ->) | (response & -> & Hfields)];
    [vm_compute in Hrun; discriminate Hrun|].
  exists response, w'. split; [reflexivity|].
  assert (Hok : Service.success response = true
                /\ Service.resp_dryRun response = Some true)
    by (vm_compute in Hrun; injection Hrun as <- _; now split).
  destruct Hok as [Hok Hdry]. split; [exact Hok|].
  rewrite Hok in Hfields. now apply Hfields.
Defined.

(* ===================================================================== *)
(** * The bullet points of the overlay                                   *)
(* ===================================================================== *)

Lemma wrap_text_nonempty text_width text max_width :
  exists line lines, _wrap_text text_width text max_width = line :: lines.
Proof.
  destruct (wrap_text_groups text_width max_width text)
    as (groups & _ & _ & ->).
  destruct groups as [|group groups]; cbn [map]; now eexists _, _.
Qed.

(** X27.  The overlay shows the bullet points in their order and skips none in
    the middle: the fitted points are the first k bullet points, whose
    heights fit the available height together, followed at most by one
    more entry, the first wrapped line of the next point with three dots;
    when every point fits, all of them are shown unchanged. *)
Theorem fit_points_prefix text_width text_height content_width
    available_height bullet_points current_height :
  let height := point_height text_width text_height content_width in
  let fitted := fit_points text_width text_height content_width
                  available_height bullet_points current_height in
  (exists k tail,
     fitted = take k bullet_points ++ tail /\
     k <= length bullet_points /\
     (k = 0 \/
      (current_height + sum_Z (map height (take k bullet_points))
         <= available_height)%Z) /\
     (tail = [] \/
      exists point line,
        bullet_points !! k = Some point /\
        head (_wrap_text text_width point content_width) = Some line /\
        tail = [line ++ u "..."])) /\
  ((forall j, j <= length bullet_points ->
      (current_height + sum_Z (map height (take j bullet_points))
         <= available_height)%Z) ->
   fitted = bullet_points).
Proof.
  cbn zeta. revert current_height.
  induction bullet_points as [|point rest IH]; intros current_height.
  - split; [|reflexivity]. exists 0, []. repeat split; auto.
  - cbn [fit_points].
    set (h := point_height text_width text_height content_width point).
    split.
    + destruct (current_height + h <=? available_height)%Z eqn:Hfits.
      * apply Z.leb_le in Hfits.
        destruct (IH (current_height + h)%Z)
          as [(k & tail & Hfit & Hk & Hsum & Htail) _].
        exists (S k), tail. cbn [take app length map sum_Z fold_right].
        fold h. split; [now rewrite Hfit|]. split; [lia|].
        split; [right|exact Htail].
        destruct Hsum as [->|Hsum];
          [rewrite take_0; cbn [map fold_right]; lia|].
        unfold sum_Z in *. lia.
      * destruct (current_height <? available_height - 50)%Z;
          [|exists 0, []; repeat split; auto with lia].
        destruct (wrap_text_nonempty text_width point content_width)
          as (line & lines & Hwrap).
        rewrite Hwrap.
        destruct (current_height + (text_height line + 12)
                    <=? available_height)%Z;
          [|exists 0, []; repeat split; auto with lia].
        exists 0, [line ++ u "..."]. cbn [take app].
        split; [reflexivity|]. split; [cbn; lia|]. split; [now left|].
        right. exists point, line. rewrite Hwrap. now repeat split.
    + intros Hall.
      replace (current_height + h <=? available_height)%Z with true.
      * f_equal. apply IH. intros j Hj.
        specialize (Hall (S j)). cbn [take map sum_Z fold_right length] in Hall.
        fold h in Hall. unfold sum_Z. lia.
      * symmetry. apply Z.leb_le.
        specialize (Hall 1). cbn [take map sum_Z fold_right length] in Hall.
        fold h in Hall. rewrite take_0 in Hall. cbn [map fold_right] in Hall.
        lia.
Qed.

(* ===================================================================== *)
(** * The dry run                                                        *)
(* ===================================================================== *)






